(** * Q&A knowledge base (app.py): a shallow embedding and its properties

    The program keeps two stores.  The user store ([users.yaml]) maps a
    username to a record; it is only ever looked up by key, so it is a
    finite map.  The Q&A store ([qa_data.json], mirrored in
    [st.session_state.subjects]) maps a subject to a list of entries; the
    program iterates over it, so it is modelled as Python's
    insertion-ordered [dict]: an association list whose keys are distinct. *)

From Stdlib Require Import Ascii.
From stdpp Require Import base option list strings gmap.

#[local] Set Warnings "-register-all".

(** ** Python's [dict] with [str] keys, in insertion order *)
Module PyDict.

Abbreviation dict V := (list (string * V)).

Section ops.
Context {V : Type}.

(** [d.get(k)]; [d[k]] is the same lookup, where [None] is a [KeyError]. *)
Fixpoint dget (k : string) (d : dict V) : option V :=
  match d with
  | [] => None
  | (k', v) :: d' => if decide (k = k') then Some v else dget k d'
  end.

(** [k in d] *)
Definition dmem (k : string) (d : dict V) : bool :=
  match dget k d with Some _ => true | None => false end.

(** [d[k] = v]: an existing key keeps its place, a new key goes last. *)
Fixpoint dset (k : string) (v : V) (d : dict V) : dict V :=
  match d with
  | [] => [(k, v)]
  | (k', v') :: d' =>
      if decide (k = k') then (k, v) :: d' else (k', v') :: dset k v d'
  end.

(** [list(d.keys())] *)
Definition dkeys (d : dict V) : list string := d.*1.

(** A Python dict holds every key once. *)
Definition wf (d : dict V) : Prop := NoDup (dkeys d).

Lemma dget_dset_eq k v d : dget k (dset k v d) = Some v.
Proof.
  induction d as [|[k' v'] d IH]; simpl.
  - by rewrite decide_True.
  - destruct (decide (k = k')); simpl.
    + by rewrite decide_True.
    + by rewrite decide_False.
Qed.

Lemma dget_dset_ne k k' v d : k ≠ k' → dget k' (dset k v d) = dget k' d.
Proof.
  intros Hne. induction d as [|[k0 v0] d IH]; simpl.
  - by rewrite decide_False.
  - destruct (decide (k = k0)) as [->|]; simpl.
    + by rewrite !decide_False.
    + by rewrite IH.
Qed.

Lemma dget_None k d : dget k d = None ↔ k ∉ dkeys d.
Proof.
  unfold dkeys. induction d as [|[k' v'] d IH]; simpl.
  - split; [intros _; apply not_elem_of_nil | done].
  - rewrite not_elem_of_cons.
    destruct (decide (k = k')) as [->|Hne]; [split; [done|tauto]|].
    rewrite IH. tauto.
Qed.

Lemma dget_Some_elem k v d : dget k d = Some v → (k, v) ∈ d.
Proof.
  induction d as [|[k' v'] d IH]; simpl; [done|].
  destruct (decide (k = k')) as [->|].
  - intros [= ->]. left.
  - intros. right. auto.
Qed.

Lemma elem_dget k v d : wf d → (k, v) ∈ d → dget k d = Some v.
Proof.
  unfold wf, dkeys. induction d as [|[k' v'] d IH]; simpl.
  - intros _ H. by apply elem_of_nil in H.
  - intros Hnd Hin. apply NoDup_cons in Hnd as [Hk Hnd].
    apply elem_of_cons in Hin as [[= -> ->]|Hin].
    + by rewrite decide_True.
    + rewrite decide_False; [by apply IH|].
      intros ->. apply Hk. apply list_elem_of_fmap. by exists (k', v).
Qed.

(** Assigning to a key that is present changes neither the keys nor
    their order. *)
Lemma dkeys_dset_present k v d :
  k ∈ dkeys d → dkeys (dset k v d) = dkeys d.
Proof.
  unfold dkeys. induction d as [|[k' v'] d IH]; simpl.
  - intros H. by apply elem_of_nil in H.
  - intros Hin. destruct (decide (k = k')) as [->|Hne]; simpl; [done|].
    f_equal. apply IH. apply elem_of_cons in Hin as [?|?]; done.
Qed.

Lemma dset_absent k v d : k ∉ dkeys d → dset k v d = d ++ [(k, v)].
Proof.
  unfold dkeys. induction d as [|[k' v'] d IH]; simpl; [done|].
  intros Hk. apply not_elem_of_cons in Hk as [Hne Hk].
  rewrite decide_False by done. f_equal. by apply IH.
Qed.

(** Assignment at a present key, seen on the items. *)
Lemma dset_present_split k v d :
  wf d → k ∈ dkeys d →
  ∃ d1 v0 d2, d = d1 ++ ((k, v0) :: d2) ∧ (k ∉ dkeys d1) ∧ (k ∉ dkeys d2)
              ∧ dset k v d = d1 ++ ((k, v) :: d2).
Proof.
  unfold wf, dkeys. induction d as [|[k' v'] d IH]; simpl.
  - intros _ H. by apply elem_of_nil in H.
  - intros Hnd Hin. apply NoDup_cons in Hnd as [Hk Hnd].
    destruct (decide (k = k')) as [->|Hne].
    + exists [], v', d. repeat split; auto. apply not_elem_of_nil.
    + apply elem_of_cons in Hin as [?|Hin]; [done|].
      destruct (IH Hnd Hin) as (d1 & v0 & d2 & -> & H1 & H2 & Hset).
      exists ((k', v') :: d1), v0, d2. simpl. rewrite Hset.
      repeat split; auto. apply not_elem_of_cons. auto.
Qed.

Lemma wf_dset k v d : wf d → wf (dset k v d).
Proof.
  intros Hwf. destruct (decide (k ∈ dkeys d)) as [Hin|Hnin].
  - unfold wf. by rewrite dkeys_dset_present.
  - rewrite dset_absent by done. unfold wf, dkeys in *.
    rewrite fmap_app. simpl. apply NoDup_app. repeat split; auto.
    + intros x Hx Hx'. apply list_elem_of_singleton in Hx' as ->. done.
    + apply NoDup_singleton.
Qed.
End ops.

End PyDict.
Import PyDict.

(** ** Python's [json] module on the values the program stores

    [json.dumps(obj, indent=4)] and [json.loads] after CPython's
    [json.encoder] (the pure-Python encoder that runs when [indent] is given,
    with the default [ensure_ascii=True]) and [json.decoder].  A Python
    [str] is a [string] whose characters stand for the code points below 256;
    the values are those the program can hand to [json]: [None], booleans,
    strings, lists, and dicts with string keys (no numbers are ever stored). *)
Module Json.

#[local] Unset Elimination Schemes.
Inductive json :=
  | JNull
  | JBool (b : bool)
  | JStr (s : string)
  | JArr (items : list json)
  | JObj (members : dict json).
#[local] Set Elimination Schemes.

Definition dquote : ascii := "034"%char.
Definition backslash : ascii := "092"%char.
Definition LF : ascii := "010"%char.

Abbreviation chars := String.list_ascii_of_string.

(** *** Encoder *)

Definition hex_digit (n : N) : ascii :=
  match n with
  | 0 => "0" | 1 => "1" | 2 => "2" | 3 => "3" | 4 => "4" | 5 => "5"
  | 6 => "6" | 7 => "7" | 8 => "8" | 9 => "9" | 10 => "a" | 11 => "b"
  | 12 => "c" | 13 => "d" | 14 => "e" | _ => "f"
  end%N%char.

(** [ESCAPE_DCT] and the [replace] callback of
    [py_encode_basestring_ascii]: everything outside [' '..'~'], the
    backslash and the double quote are escaped. *)
Definition escape_char (c : ascii) : list ascii :=
  let n := N_of_ascii c in
  if decide (c = dquote) then [backslash; dquote]
  else if decide (c = backslash) then [backslash; backslash]
  else if decide (n = 8%N) then [backslash; "b"%char]
  else if decide (n = 12%N) then [backslash; "f"%char]
  else if decide (n = 10%N) then [backslash; "n"%char]
  else if decide (n = 13%N) then [backslash; "r"%char]
  else if decide (n = 9%N) then [backslash; "t"%char]
  else if decide (32 ≤ n ∧ n ≤ 126)%N then [c]
  else [backslash; "u"%char; "0"%char; "0"%char;
        hex_digit (n / 16); hex_digit (n mod 16)].

Definition encode_string (s : string) : list ascii :=
  dquote :: (chars s ≫= escape_char) ++ [dquote].

(** ['\n' + _indent * _current_indent_level] with [_indent = ' ' * 4] *)
Definition newline_indent (level : nat) : list ascii :=
  LF :: replicate (4 * level) " "%char.

(** [_iterencode], [_iterencode_list] and [_iterencode_dict] at indent
    level [level], the chunks concatenated.  The item separator is [','],
    the key separator [': ']. *)
Fixpoint encode (level : nat) (v : json) : list ascii :=
  match v with
  | JNull => chars "null"
  | JBool true => chars "true"
  | JBool false => chars "false"
  | JStr s => encode_string s
  | JArr [] => chars "[]"
  | JArr (v0 :: vs) =>
      "["%char :: newline_indent (S level) ++ encode (S level) v0
      ++ (vs ≫= λ v,
            ","%char :: newline_indent (S level) ++ encode (S level) v)
      ++ newline_indent level ++ ["]"%char]
  | JObj [] => chars "{}"
  | JObj (m0 :: ms) =>
      "{"%char :: newline_indent (S level)
      ++ encode_string m0.1 ++ chars ": " ++ encode (S level) m0.2
      ++ (ms ≫= λ m,
            ","%char :: newline_indent (S level)
            ++ encode_string m.1 ++ chars ": " ++ encode (S level) m.2)
      ++ newline_indent level ++ ["}"%char]
  end.

Definition dumps (v : json) : string :=
  String.string_of_list_ascii (encode 0 v).

(** *** Decoder *)

(** The [WHITESPACE] pattern: [' \t\n\r']. *)
Definition is_ws (c : ascii) : bool :=
  bool_decide (c = " "%char ∨ c = "009"%char ∨ c = "010"%char ∨ c = "013"%char).

Fixpoint skip_ws (s : list ascii) : list ascii :=
  match s with
  | c :: s' => if is_ws c then skip_ws s' else s
  | [] => []
  end.

Definition hex_val (c : ascii) : option N :=
  let n := N_of_ascii c in
  if decide (48 ≤ n ∧ n ≤ 57)%N then Some (n - 48)%N
  else if decide (97 ≤ n ∧ n ≤ 102)%N then Some (n - 87)%N
  else if decide (65 ≤ n ∧ n ≤ 70)%N then Some (n - 55)%N
  else None.

(** The [BACKSLASH] table of the decoder. *)
Definition backslash_char (e : ascii) : option ascii :=
  if decide (e = dquote) then Some dquote
  else if decide (e = backslash) then Some backslash
  else if decide (e = "/"%char) then Some "/"%char
  else if decide (e = "b"%char) then Some "008"%char
  else if decide (e = "f"%char) then Some "012"%char
  else if decide (e = "n"%char) then Some "010"%char
  else if decide (e = "r"%char) then Some "013"%char
  else if decide (e = "t"%char) then Some "009"%char
  else None.

(** [scanstring] from just after the opening quote (strict mode: a raw
    control character is an error).  An escape [\uXXXX] for a code point
    that is not below 256 is outside the strings modelled here. *)
Fixpoint scanstring (s : list ascii) : option (string * list ascii) :=
  match s with
  | [] => None
  | c :: s' =>
      if decide (c = dquote) then Some (EmptyString, s')
      else if decide (c = backslash) then
        match s' with
        | [] => None
        | e :: s'' =>
            if decide (e = "u"%char) then
              match s'' with
              | h1 :: h2 :: h3 :: h4 :: s3 =>
                  match hex_val h1, hex_val h2, hex_val h3, hex_val h4 with
                  | Some 0%N, Some 0%N, Some n3, Some n4 =>
                      match scanstring s3 with
                      | Some (r, out) =>
                          Some (String (ascii_of_N (16 * n3 + n4)) r, out)
                      | None => None
                      end
                  | _, _, _, _ => None
                  end
              | _ => None
              end
            else
              match backslash_char e with
              | Some ch =>
                  match scanstring s'' with
                  | Some (r, out) => Some (String ch r, out)
                  | None => None
                  end
              | None => None
              end
        end
      else if decide (N_of_ascii c < 32)%N then None
      else
        match scanstring s' with
        | Some (r, out) => Some (String c r, out)
        | None => None
        end
  end.

(** [dict(pairs)]: a repeated key keeps its first place and its last value. *)
Definition dict_of_pairs (pairs : list (string * json)) : dict json :=
  foldl (λ d '(k, v), dset k v d) [] pairs.

Definition expect (lit : string) (s : list ascii) : option (list ascii) :=
  if decide (take (String.length lit) s = chars lit)
  then Some (drop (String.length lit) s) else None.

(** [scan_once] with [JSONArray] and [JSONObject]; [fuel] bounds the number
    of nested calls.  Each returns the value and the text after it.  Number
    literals are not read (the result is [None]): the encoder above never
    writes one. *)
Fixpoint scan_once (fuel : nat) (s : list ascii) : option (json * list ascii) :=
  match fuel with
  | 0 => None
  | S fuel =>
      match s with
      | [] => None
      | c :: s' =>
          if decide (c = dquote) then
            match scanstring s' with
            | Some (str, out) => Some (JStr str, out)
            | None => None
            end
          else if decide (c = "{"%char) then
            match skip_ws s' with
            | c1 :: s1 =>
                if decide (c1 = "}"%char) then Some (JObj [], s1)
                else
                  match scan_members fuel (c1 :: s1) with
                  | Some (pairs, out) => Some (JObj (dict_of_pairs pairs), out)
                  | None => None
                  end
            | [] => None
            end
          else if decide (c = "["%char) then
            match skip_ws s' with
            | c1 :: s1 =>
                if decide (c1 = "]"%char) then Some (JArr [], s1)
                else
                  match scan_items fuel (c1 :: s1) with
                  | Some (items, out) => Some (JArr items, out)
                  | None => None
                  end
            | [] => None
            end
          else if decide (c = "n"%char) then
            match expect "null" s with
            | Some out => Some (JNull, out)
            | None => None
            end
          else if decide (c = "t"%char) then
            match expect "true" s with
            | Some out => Some (JBool true, out)
            | None => None
            end
          else if decide (c = "f"%char) then
            match expect "false" s with
            | Some out => Some (JBool false, out)
            | None => None
            end
          else None
      end
  end
with scan_items (fuel : nat) (s : list ascii)
    : option (list json * list ascii) :=
  match fuel with
  | 0 => None
  | S fuel =>
      match scan_once fuel s with
      | Some (v, s1) =>
          match skip_ws s1 with
          | c :: s2 =>
              if decide (c = "]"%char) then Some ([v], s2)
              else if decide (c = ","%char) then
                match scan_items fuel (skip_ws s2) with
                | Some (vs, out) => Some (v :: vs, out)
                | None => None
                end
              else None
          | [] => None
          end
      | None => None
      end
  end
with scan_members (fuel : nat) (s : list ascii)
    : option (list (string * json) * list ascii) :=
  match fuel with
  | 0 => None
  | S fuel =>
      match s with
      | c :: s' =>
          if decide (c = dquote) then
            match scanstring s' with
            | Some (key, s1) =>
                match skip_ws s1 with
                | c2 :: s2 =>
                    if decide (c2 = ":"%char) then
                      match scan_once fuel (skip_ws s2) with
                      | Some (v, s3) =>
                          match skip_ws s3 with
                          | c4 :: s4 =>
                              if decide (c4 = "}"%char)
                              then Some ([(key, v)], s4)
                              else if decide (c4 = ","%char) then
                                match scan_members fuel (skip_ws s4) with
                                | Some (ms, out) => Some ((key, v) :: ms, out)
                                | None => None
                                end
                              else None
                          | [] => None
                          end
                      | None => None
                      end
                    else None
                | [] => None
                end
            | None => None
            end
          else None
      | [] => None
      end
  end.

(** [json.loads]: one value between optional whitespace, nothing after. *)
Definition loads (doc : string) : option json :=
  let s := chars doc in
  match scan_once (S (length s)) (skip_ws s) with
  | Some (v, out) =>
      match skip_ws out with
      | [] => Some v
      | _ :: _ => None
      end
  | None => None
  end.

(** *** Decoding what the encoder wrote *)

(** Values as Python holds them: no dict has a key twice. *)
Inductive jwf : json → Prop :=
  | jwf_null : jwf JNull
  | jwf_bool b : jwf (JBool b)
  | jwf_str s : jwf (JStr s)
  | jwf_arr items : Forall jwf items → jwf (JArr items)
  | jwf_obj members :
      wf members → Forall (λ m, jwf m.2) members → jwf (JObj members).

(** An upper bound on the calls [scan_once] needs for a value. *)
Fixpoint jsize (v : json) : nat :=
  match v with
  | JArr items => S (foldr (λ v n, S (jsize v + n)) 0 items)
  | JObj members => S (foldr (λ m n, S (jsize m.2 + n)) 0 members)
  | _ => 1
  end.

(** [v] is read back from its encoding at any indent level, whatever text
    follows, once the fuel covers its size. *)
Definition decodes (v : json) : Prop :=
  ∀ level rest fuel,
    jsize v ≤ fuel → scan_once fuel (encode level v ++ rest) = Some (v, rest).

Lemma json_ind (P : json → Prop) :
  P JNull → (∀ b, P (JBool b)) → (∀ s, P (JStr s)) →
  (∀ items, Forall P items → P (JArr items)) →
  (∀ members, Forall (λ m, P m.2) members → P (JObj members)) →
  ∀ v, P v.
Proof.
  intros Hnull Hbool Hstr Harr Hobj. fix IH 1. intros [|b|s|items|members].
  - exact Hnull.
  - apply Hbool.
  - apply Hstr.
  - apply Harr. induction items as [|v items IHitems]; constructor.
    + apply IH.
    + exact IHitems.
  - apply Hobj. induction members as [|[k v] members IHm]; constructor.
    + apply IH.
    + exact IHm.
Qed.

Lemma scanstring_escape_char c tail :
  scanstring (escape_char c ++ tail)
  = match scanstring tail with
    | Some (r, out) => Some (String c r, out)
    | None => None
    end.
Proof. destruct c as [[] [] [] [] [] [] [] []]; reflexivity. Qed.

Lemma scanstring_escaped s rest :
  scanstring ((chars s ≫= escape_char) ++ dquote :: rest) = Some (s, rest).
Proof.
  induction s as [|c s IH]; [done|].
  cbn [String.list_ascii_of_string]. rewrite bind_cons, <- app_assoc.
  by rewrite scanstring_escape_char, IH.
Qed.

Lemma scan_once_string fuel s rest :
  scan_once (S fuel) (encode_string s ++ rest) = Some (JStr s, rest).
Proof.
  unfold encode_string. cbn [app scan_once].
  rewrite decide_True by done.
  rewrite <- app_assoc. cbn [app]. by rewrite scanstring_escaped.
Qed.

Lemma skip_ws_spaces n s : skip_ws (replicate n " "%char ++ s) = skip_ws s.
Proof. induction n as [|n IH]; [done|exact IH]. Qed.

Lemma skip_ws_newline_indent level s :
  skip_ws (newline_indent level ++ s) = skip_ws s.
Proof.
  unfold newline_indent.
  change (skip_ws (replicate (4 * level) " "%char ++ s) = skip_ws s).
  apply skip_ws_spaces.
Qed.

Lemma skip_ws_not_ws c s : is_ws c = false → skip_ws (c :: s) = c :: s.
Proof. intros H. cbn. by rewrite H. Qed.

(** The first character of an encoded string is the quote. *)
Lemma encode_string_head s : ∃ tl, encode_string s = dquote :: tl.
Proof. by eexists. Qed.

(** An encoded value starts with neither whitespace nor a closing bracket. *)
Lemma encode_head level v :
  ∃ c tl, encode level v = c :: tl
          ∧ is_ws c = false ∧ c ≠ "]"%char ∧ c ≠ "}"%char.
Proof.
  destruct v as [|[]|s|[|v0 vs]|[|m0 ms]]; cbn; by eexists _, _.
Qed.

Lemma skip_ws_encode level v s :
  skip_ws (encode level v ++ s) = encode level v ++ s.
Proof.
  destruct (encode_head level v) as (c & tl & -> & Hc & _).
  by apply skip_ws_not_ws.
Qed.

Lemma dict_of_pairs_wf (pairs : list (string * json)) :
  wf pairs → dict_of_pairs pairs = pairs.
Proof.
  unfold dict_of_pairs.
  assert (H : ∀ acc : dict json,
    wf pairs → (∀ k, k ∈ dkeys pairs → k ∉ dkeys acc) →
    foldl (λ d '(k, v), dset k v d) acc pairs = acc ++ pairs).
  { induction pairs as [|[k v] pairs IH]; intros acc Hwf Hfresh; simpl.
    - by rewrite app_nil_r.
    - apply NoDup_cons in Hwf as [Hk Hnd].
      assert (Hkacc : k ∉ dkeys acc) by (apply Hfresh; left).
      rewrite IH; [|done|].
      + rewrite dset_absent by done. by rewrite <- app_assoc.
      + intros k' Hk'. rewrite dset_absent by done.
        unfold dkeys. rewrite fmap_app.
        intros [Hin|Hin%list_elem_of_singleton]%elem_of_app.
        * eapply Hfresh; [right; exact Hk'|done].
        * simpl in Hin. subst. done. }
  intros Hwf. rewrite H; [done|done|]. intros k _. apply not_elem_of_nil.
Qed.

(** One round of the loop of [JSONArray]. *)
Lemma scan_items_step fuel level v tail :
  decodes v → jsize v ≤ fuel →
  scan_items (S fuel) (encode level v ++ tail)
  = match skip_ws tail with
    | c :: s2 =>
        if decide (c = "]"%char) then Some ([v], s2)
        else if decide (c = ","%char) then
          match scan_items fuel (skip_ws s2) with
          | Some (vs, out) => Some (v :: vs, out)
          | None => None
          end
        else None
    | [] => None
    end.
Proof. intros Hv Hfuel. cbn [scan_items]. by rewrite Hv. Qed.

(** One round of the loop of [JSONObject]. *)
Lemma scan_members_step fuel level k v tail :
  decodes v → jsize v ≤ fuel →
  scan_members (S fuel)
    (encode_string k ++ chars ": " ++ encode level v ++ tail)
  = match skip_ws tail with
    | c4 :: s4 =>
        if decide (c4 = "}"%char) then Some ([(k, v)], s4)
        else if decide (c4 = ","%char) then
          match scan_members fuel (skip_ws s4) with
          | Some (ms, out) => Some ((k, v) :: ms, out)
          | None => None
          end
        else None
    | [] => None
    end.
Proof.
  intros Hv Hfuel. unfold encode_string. cbn [app scan_members].
  rewrite decide_True by done.
  rewrite <- app_assoc. cbn [app]. rewrite scanstring_escaped.
  change (skip_ws (chars ": " ++ encode level v ++ tail))
    with (":"%char :: " "%char :: encode level v ++ tail).
  cbn iota. rewrite decide_True by done.
  change (skip_ws (" "%char :: encode level v ++ tail))
    with (skip_ws (encode level v ++ tail)).
  by rewrite skip_ws_encode, Hv.
Qed.

Lemma scan_items_encoded (vs : list json) :
  ∀ v0 level rest fuel,
    Forall decodes (v0 :: vs) →
    foldr (λ v n, S (jsize v + n)) 0 (v0 :: vs) ≤ fuel →
    scan_items fuel
      (encode (S level) v0
       ++ (vs ≫= λ v,
             ","%char :: newline_indent (S level) ++ encode (S level) v)
       ++ newline_indent level ++ "]"%char :: rest)
    = Some (v0 :: vs, rest).
Proof.
  induction vs as [|v1 vs IH]; intros v0 level rest fuel Hall Hfuel;
    apply Forall_cons in Hall as [Hv0 Hall];
    (destruct fuel as [|fuel]; [cbn in Hfuel; lia|]);
    cbn [foldr] in Hfuel;
    rewrite scan_items_step by (done || lia).
  - cbn [mbind list_bind]. rewrite app_nil_l.
    rewrite (skip_ws_newline_indent level).
    change (skip_ws ("]"%char :: rest)) with ("]"%char :: rest).
    cbn iota. by rewrite decide_True.
  - rewrite bind_cons, <- !app_assoc.
    rewrite <- app_comm_cons, skip_ws_not_ws by done.
    rewrite decide_False by done. rewrite decide_True by done.
    rewrite <- !app_assoc.
    rewrite (skip_ws_newline_indent (S level)), skip_ws_encode.
    rewrite (IH v1 level rest fuel); [done|done|cbn [foldr]; lia].
Qed.

Lemma scan_members_encoded (ms : dict json) :
  ∀ m0 level rest fuel,
    Forall (λ m, decodes m.2) (m0 :: ms) →
    foldr (λ m n, S (jsize m.2 + n)) 0 (m0 :: ms) ≤ fuel →
    scan_members fuel
      (encode_string m0.1 ++ chars ": " ++ encode (S level) m0.2
       ++ (ms ≫= λ m,
             ","%char :: newline_indent (S level)
             ++ encode_string m.1 ++ chars ": " ++ encode (S level) m.2)
       ++ newline_indent level ++ "}"%char :: rest)
    = Some (m0 :: ms, rest).
Proof.
  induction ms as [|m1 ms IH]; intros [k0 v0] level rest fuel Hall Hfuel;
    apply Forall_cons in Hall as [Hv0 Hall];
    (destruct fuel as [|fuel]; [cbn in Hfuel; lia|]);
    cbn [foldr fst snd] in Hfuel, Hv0; cbn [fst snd];
    rewrite scan_members_step by (done || lia).
  - cbn [mbind list_bind]. rewrite app_nil_l.
    rewrite (skip_ws_newline_indent level).
    change (skip_ws ("}"%char :: rest)) with ("}"%char :: rest).
    cbn iota. by rewrite decide_True.
  - rewrite bind_cons, <- !app_assoc.
    rewrite <- app_comm_cons, skip_ws_not_ws by done.
    rewrite decide_False by done. rewrite decide_True by done.
    rewrite <- !app_assoc.
    rewrite (skip_ws_newline_indent (S level)).
    change (skip_ws (encode_string m1.1 ++ ?tl))
      with (encode_string m1.1 ++ tl).
    rewrite (IH m1 level rest fuel); [done|done|cbn [foldr]; lia].
Qed.

Lemma scan_once_array fuel s :
  scan_once (S fuel) ("["%char :: s)
  = match skip_ws s with
    | c1 :: s1 =>
        if decide (c1 = "]"%char) then Some (JArr [], s1)
        else
          match scan_items fuel (c1 :: s1) with
          | Some (items, out) => Some (JArr items, out)
          | None => None
          end
    | [] => None
    end.
Proof. reflexivity. Qed.

Lemma scan_once_object fuel s :
  scan_once (S fuel) ("{"%char :: s)
  = match skip_ws s with
    | c1 :: s1 =>
        if decide (c1 = "}"%char) then Some (JObj [], s1)
        else
          match scan_members fuel (c1 :: s1) with
          | Some (pairs, out) => Some (JObj (dict_of_pairs pairs), out)
          | None => None
          end
    | [] => None
    end.
Proof. reflexivity. Qed.

(** Every value without repeated keys is read back from its encoding. *)
Lemma scan_once_encoded v : jwf v → decodes v.
Proof.
  induction v as [|b|s|items IH|members IH] using json_ind;
    intros Hwf level rest fuel Hfuel;
    (destruct fuel as [|fuel]; [cbn in Hfuel; lia|]).
  - reflexivity.
  - destruct b; reflexivity.
  - apply scan_once_string.
  - inversion Hwf as [| | |? Hitems|]; subst.
    assert (Hdec : Forall decodes items).
    { apply Forall_forall. intros v Hv.
      rewrite Forall_forall in IH, Hitems. apply IH; auto. }
    destruct items as [|v0 vs]; [reflexivity|].
    cbn [encode]. rewrite <- app_comm_cons, scan_once_array.
    rewrite <- !app_assoc.
    rewrite (skip_ws_newline_indent (S level)), skip_ws_encode.
    destruct (encode_head (S level) v0) as (c & tl & Hc & _ & Hne & _).
    rewrite Hc, <- app_comm_cons. rewrite decide_False by done.
    rewrite app_comm_cons, <- Hc. cbn [app].
    rewrite scan_items_encoded; [done|done|]. cbn [jsize] in Hfuel. lia.
  - inversion Hwf as [| | | |? Hkeys Hmembers]; subst.
    assert (Hdec : Forall (λ m, decodes m.2) members).
    { apply Forall_forall. intros m Hm.
      rewrite Forall_forall in IH, Hmembers. apply IH; auto. }
    destruct members as [|m0 ms]; [reflexivity|].
    cbn [encode]. rewrite <- app_comm_cons, scan_once_object.
    rewrite <- !app_assoc.
    rewrite (skip_ws_newline_indent (S level)).
    unfold encode_string at 1. rewrite <- app_comm_cons.
    rewrite skip_ws_not_ws by done. rewrite decide_False by done.
    change (dquote :: (chars m0.1 ≫= escape_char) ++ [dquote])
      with (encode_string m0.1).
    rewrite app_comm_cons.
    change (dquote :: (chars m0.1 ≫= escape_char) ++ [dquote])
      with (encode_string m0.1).
    cbn [app].
    rewrite scan_members_encoded; [|done|cbn [jsize] in Hfuel; lia].
    by rewrite dict_of_pairs_wf.
Qed.

Lemma jsize_le_length v : ∀ level, jsize v ≤ length (encode level v).
Proof.
  induction v as [|b|s|items IH|members IH] using json_ind; intros level.
  - cbn. lia.
  - destruct b; cbn; lia.
  - cbn. lia.
  - destruct items as [|v0 vs]; [cbn; lia|].
    apply Forall_cons in IH as [Hv0 IH].
    cbn [encode jsize foldr]. cbn [length]. rewrite !length_app.
    specialize (Hv0 (S level)).
    assert (foldr (λ v n, S (jsize v + n)) 0 vs
            ≤ length (vs ≫= λ v, ","%char :: newline_indent (S level)
                                  ++ encode (S level) v)) as Hvs.
    { clear Hv0. induction IH as [|v vs Hv _ IHvs]; [done|].
      rewrite bind_cons, length_app. cbn [foldr length].
      rewrite length_app. specialize (Hv (S level)). lia. }
    cbn [length]. lia.
  - destruct members as [|m0 ms]; [cbn; lia|].
    apply Forall_cons in IH as [Hv0 IH].
    cbn [encode jsize foldr]. cbn [length]. rewrite !length_app.
    specialize (Hv0 (S level)).
    assert (foldr (λ m n, S (jsize m.2 + n)) 0 ms
            ≤ length (ms ≫= λ m, ","%char :: newline_indent (S level)
                                  ++ encode_string m.1 ++ chars ": "
                                  ++ encode (S level) m.2)) as Hms.
    { clear Hv0. induction IH as [|m ms Hm _ IHms]; [done|].
      rewrite bind_cons, length_app. cbn [foldr length].
      rewrite !length_app. specialize (Hm (S level)). lia. }
    cbn [length]. lia.
Qed.

(** [json.loads(json.dumps(v, indent=4))] is [v]. *)
Lemma loads_dumps v : jwf v → loads (dumps v) = Some v.
Proof.
  intros Hwf. unfold loads, dumps.
  rewrite String.list_ascii_of_string_of_list_ascii.
  rewrite <- (app_nil_r (encode 0 v)) at 2.
  rewrite skip_ws_encode, scan_once_encoded; [done|done|].
  pose proof (jsize_le_length v 0). lia.
Qed.

End Json.

(** ** The user store *)
Module Users.

(** One value of [users.yaml]: [{"password": ..., "email": ..., "created_at": ...}].
    [email] is [None] when [register_user] is called without it. *)
Record UserRecord := {
  password : string;
  email : option string;
  created_at : string
}.

(** The parsed contents of [USER_FILE]; [None] when the file is missing or
    holds an empty YAML document. *)
Abbreviation user_file := (option (gmap string UserRecord)).

Section store_code.
(** [hashlib.sha256(password.encode()).hexdigest()], the hash of the
    Python runtime. *)
Variable hash_password : string → string.

Definition load_users (f : user_file) : gmap string UserRecord :=
  match f with
  | Some users => users
  | None => ∅
  end.

Definition save_users (users : gmap string UserRecord) : user_file :=
  Some users.

(** [register_user(username, password, email)]; [now] is
    [datetime.now().strftime("%Y-%m-%d %H:%M:%S")].  Returns the result and
    the file as it is left. *)
Definition register_user (username password : string) (email : option string)
    (now : string) (f : user_file) : bool * user_file :=
  let users := load_users f in
  if decide (is_Some (users !! username)) then (false, f)
  else
    let users := <[username := {| password := hash_password password;
                                  email := email;
                                  created_at := now |}]> users in
    (true, save_users users).

Definition verify_user (username password : string) (f : user_file) : bool :=
  let users := load_users f in
  match users !! username with
  | Some r => bool_decide (r.(Users.password) = hash_password password)
  | None => false
  end.

End store_code.

(** *** A small store to run the functions on *)

(** A stand-in for the hash, injective on the passwords used below. *)
Definition demo_hash (password : string) : string := "sha256:" +:+ password.

Definition demo_users : user_file :=
  Some {[ "alice" := {| password := demo_hash "wonderland";
                        email := Some "alice@example.org";
                        created_at := "2024-01-01 09:00:00" |} ]}.

(** *** Properties of the user store *)

Section store_facts.
Variable hash_password : string → string.

(** C2: [verify_user] answers true exactly when the username is in the
    store and its stored hash is the hash of the supplied password; an
    unknown username and a wrong password both give false. *)
Theorem verify_user_iff (f : user_file) (username password : string) :
  (verify_user hash_password username password f = true ↔
     ∃ r, load_users f !! username = Some r
          ∧ r.(Users.password) = hash_password password)
  ∧ (load_users f !! username = None →
       verify_user hash_password username password f = false)
  ∧ (∀ r, load_users f !! username = Some r →
          r.(Users.password) ≠ hash_password password →
          verify_user hash_password username password f = false).
Proof.
  unfold verify_user. split_and!.
  - destruct (load_users f !! username) as [r|] eqn:E.
    + rewrite bool_decide_eq_true. split.
      * intros H. by exists r.
      * by intros (r' & [= <-] & H).
    + split; [done|]. by intros (r & ? & _).
  - by intros ->.
  - intros r -> Hne. by apply bool_decide_eq_false.
Qed.

(** C3: registering a username that is present returns false and leaves
    the store as it was; registering an absent one returns true and adds
    the record made of the password's hash, the email and the timestamp,
    every other user's record staying as it was. *)
Theorem register_user_spec (f : user_file)
    (username password : string) (email : option string) (now : string) :
  (∀ r, load_users f !! username = Some r →
     register_user hash_password username password email now f = (false, f)
     ∧ load_users
         (register_user hash_password username password email now f).2
         !! username
       = Some r)
  ∧ (load_users f !! username = None →
     ∃ f', register_user hash_password username password email now f
           = (true, f')
       ∧ load_users f' !! username
         = Some {| password := hash_password password;
                   email := email; created_at := now |}
       ∧ ∀ other, other ≠ username →
           load_users f' !! other = load_users f !! other).
Proof.
  unfold register_user. split.
  - intros r Hr. rewrite decide_True by (by rewrite Hr). done.
  - intros Hn. rewrite decide_False by (rewrite Hn; by intros [? ?]).
    eexists. split; [done|]. simpl. split.
    + by rewrite lookup_insert_eq.
    + intros other Hne. by rewrite lookup_insert_ne.
Qed.
End store_facts.

Lemma verify_user_iff_witness :
  verify_user demo_hash "alice" "wonderland" demo_users = true
  ∧ verify_user demo_hash "bob" "wonderland" demo_users = false
  ∧ verify_user demo_hash "alice" "looking-glass" demo_users = false.
Proof.
  split_and!.
  - apply (verify_user_iff demo_hash demo_users "alice" "wonderland").
    eexists. split; [vm_compute; reflexivity|reflexivity].
  - apply (verify_user_iff demo_hash demo_users "bob" "wonderland").
    vm_compute. reflexivity.
  - eapply (verify_user_iff demo_hash demo_users "alice" "looking-glass").
    + vm_compute. reflexivity.
    + vm_compute. discriminate.
Defined.

Lemma register_user_spec_witness :
  register_user demo_hash "alice" "rabbit" None "2024-02-02 08:00:00" demo_users
  = (false, demo_users)
  ∧ ∃ f', register_user demo_hash "bob" "builder" None "2024-02-02 08:00:00"
                        demo_users = (true, f')
          ∧ load_users f' !! "bob"
            = Some {| password := demo_hash "builder"; email := None;
                      created_at := "2024-02-02 08:00:00" |}
          ∧ load_users f' !! "alice" = load_users demo_users !! "alice".
Proof.
  split.
  - eapply (register_user_spec demo_hash demo_users "alice" "rabbit" None).
    vm_compute. reflexivity.
  - destruct (register_user_spec demo_hash demo_users "bob" "builder" None
                "2024-02-02 08:00:00") as [_ Hnew].
    destruct Hnew as (f' & Hreg & Hbob & Hothers); [vm_compute; reflexivity|].
    exists f'. split_and!; [exact Hreg|exact Hbob|].
    apply Hothers. discriminate.
Defined.

End Users.

(** ** The Q&A store and the session *)
Module QA.

(** One entry of a subject's list, with the four keys [add_qa] gives it.
    [created_by] is what [qa.get("created_by")] returns: the creator's
    username, or Python's [None]. *)
Record QAEntry := {
  question : string;
  answer : string;
  timestamp : string;
  created_by : option string
}.

#[global] Instance QAEntry_eq_dec : EqDecision QAEntry.
Proof. solve_decision. Defined.

Abbreviation store := (dict (list QAEntry)).

(** [st.session_state.editing], set by the Edit button. *)
Record Editing := {
  ed_subject : string;
  ed_index : nat;
  ed_question : string;
  ed_answer : string
}.

(** The state the handlers read and write: Streamlit's session state and
    the parsed contents of [DATA_FILE] ([None]: no such file). *)
Record State := {
  subjects : store;
  current_user : option string;
  authenticated : bool;
  editing : option Editing;
  data_file : option store
}.

Definition load_data (st : State) : store :=
  match data_file st with
  | Some data => data
  | None => []
  end.

Definition save_data (data : store) (st : State) : State :=
  {| subjects := subjects st; current_user := current_user st;
     authenticated := authenticated st; editing := editing st;
     data_file := Some data |}.

Definition set_subjects (data : store) (st : State) : State :=
  {| subjects := data; current_user := current_user st;
     authenticated := authenticated st; editing := editing st;
     data_file := data_file st |}.

Definition del_editing (st : State) : State :=
  {| subjects := subjects st; current_user := current_user st;
     authenticated := authenticated st; editing := None;
     data_file := data_file st |}.

(** [qa.get("created_by") == st.session_state.current_user] *)
Definition owned_by (user : option string) (qa : QAEntry) : Prop :=
  created_by qa = user.

#[global] Instance owned_by_dec user qa : Decision (owned_by user qa).
Proof. unfold owned_by. apply _. Defined.

(** Truth value of a Python list. *)
Definition truthy {A} (l : list A) : bool :=
  match l with [] => false | _ => true end.

(** [get_user_data()]: the loop over [all_data.items()] that fills
    [user_data]. *)
Definition get_user_data (st : State) : store :=
  foldl (λ user_data '(subject, qa_list),
           let user_qa := filter (owned_by (current_user st)) qa_list in
           if truthy user_qa then dset subject user_qa user_data
           else user_data)
        [] (subjects st).

(** What one pass of the loop of [get_user_data] contributes. *)
Definition visible_item (user : option string) (item : string * list QAEntry)
    : option (string * list QAEntry) :=
  let user_qa := filter (owned_by user) item.2 in
  if truthy user_qa then Some (item.1, user_qa) else None.

(** The "Save Q&A" branch of [add_qa] once all three fields are filled. *)
Definition add_qa (subject question answer now : string) (st : State) : State :=
  let subjects0 :=
    if dmem subject (subjects st) then subjects st
    else dset subject [] (subjects st) in
  let new_entry := {| question := question; answer := answer;
                      timestamp := now; created_by := current_user st |} in
  let subjects1 :=
    match dget subject subjects0 with
    | Some l => dset subject (l ++ [new_entry]) subjects0
    | None => subjects0
    end in
  save_data subjects1 (set_subjects subjects1 st).

(** The same state with another identity logged in: what [get_user_data()]
    reads when that identity runs it. *)
Definition with_user (user : option string) (st : State) : State :=
  {| subjects := subjects st; current_user := user;
     authenticated := authenticated st; editing := editing st;
     data_file := data_file st |}.

(** What a handler leaves behind: the new state, or the [KeyError] that
    [st.session_state.subjects[subject]] raises for a subject that is not a
    key (raised before anything is written). *)
Inductive result :=
  | Ok (st : State)
  | KeyError (key : string).

(** The test both handlers apply to each [item] of the subject's full list. *)
Definition same_qa (q a : string) (user : option string) (item : QAEntry)
    : Prop :=
  question item = q ∧ answer item = a ∧ created_by item = user.

#[global] Instance same_qa_dec q a user item : Decision (same_qa q a user item).
Proof. unfold same_qa. apply _. Defined.

(** The handler of the "Delete Q{i}" button of [view_qa], for the entry [qa]
    shown under [selected_subject]: the [for idx, item in enumerate(...)]
    scan stops at the first match, deletes [full_qa_list[idx]], saves. *)
Definition delete_button (selected_subject : string) (qa : QAEntry)
    (st : State) : result :=
  match dget selected_subject (subjects st) with
  | None => KeyError selected_subject
  | Some full_qa_list =>
      match list_find (same_qa (question qa) (answer qa) (current_user st))
                      full_qa_list with
      | Some (idx, _) =>
          let subjects' :=
            dset selected_subject (delete idx full_qa_list) (subjects st) in
          Ok (save_data subjects' (set_subjects subjects' st))
      | None => Ok st
      end
  end.

(** The three assignments of the edit handler to [full_qa_list[idx]]. *)
Definition edited (new_question new_answer now : string) (item : QAEntry)
    : QAEntry :=
  {| question := new_question; answer := new_answer; timestamp := now;
     created_by := created_by item |}.

(** The "Save Changes" button of the edit form of [view_qa]; the form is
    only there while [st.session_state.editing] is set. *)
Definition save_changes (new_question new_answer now : string) (st : State)
    : result :=
  match editing st with
  | None => Ok st
  | Some ed =>
      let subject := ed_subject ed in
      match dget subject (subjects st) with
      | None => KeyError subject
      | Some full_qa_list =>
          match list_find (same_qa (ed_question ed) (ed_answer ed)
                                   (current_user st)) full_qa_list with
          | Some (idx, item) =>
              let subjects' :=
                dset subject
                     (<[idx := edited new_question new_answer now item]>
                        full_qa_list)
                     (subjects st) in
              Ok (del_editing (save_data subjects' (set_subjects subjects' st)))
          | None => Ok (del_editing st)
          end
      end
  end.

(** *** Search *)

(** [s.startswith(p)] *)
Fixpoint starts_with (p s : string) : bool :=
  match p, s with
  | EmptyString, _ => true
  | String _ _, EmptyString => false
  | String a p', String b s' => bool_decide (a = b) && starts_with p' s'
  end.

(** [needle in hay] on two Python strings: [needle] occurs at some offset. *)
Fixpoint str_in (needle hay : string) : bool :=
  starts_with needle hay
  || match hay with
     | EmptyString => false
     | String _ hay' => str_in needle hay'
     end.

(** Truth value of a Python string. *)
Definition str_truthy (s : string) : bool :=
  match s with EmptyString => false | String _ _ => true end.

(** One row of the search results and of the CSV export. *)
Record Row := {
  Subject : string;
  Question : string;
  Answer : string;
  Date : string
}.

Definition mk_row (subject : string) (qa : QAEntry) : Row :=
  {| Subject := subject; Question := question qa; Answer := answer qa;
     Date := timestamp qa |}.

(** [needle] occurs in [hay]. *)
Definition substring_of (needle hay : string) : Prop :=
  ∃ pre post, hay = pre +:+ needle +:+ post.

Section search_code.
(** [str.lower] of the Python runtime. *)
Variable lower : string → string.

(** The condition of the inner [if] of [search_qa]. *)
Definition term_hits (search_term : string) (qa : QAEntry) : bool :=
  str_in (lower search_term) (lower (question qa))
  || str_in (lower search_term) (lower (answer qa)).

(** [search_qa]: the [results] list built when [search_term] is not empty;
    [None] when the search is skipped. *)
Definition search_qa (search_term : string) (st : State) : option (list Row) :=
  if str_truthy search_term then
    let user_data := get_user_data st in
    Some (foldl (λ results '(subject, qa_list),
                   foldl (λ results qa,
                            if term_hits search_term qa
                            then results ++ [mk_row subject qa]
                            else results)
                         results qa_list)
                [] user_data)
  else None.
(** A match of the search: the lower-cased term occurs in the
    lower-cased question or in the lower-cased answer. *)
Definition matches (search_term : string) (qa : QAEntry) : Prop :=
  substring_of (lower search_term) (lower (question qa))
  ∨ substring_of (lower search_term) (lower (answer qa)).

End search_code.

(** *** Export *)

Inductive ExportFormat := CSV | JSON | PDF | Markdown.

(** [str(st.session_state.current_user)] inside an f-string *)
Definition str_of_user (user : option string) : string :=
  match user with
  | Some name => name
  | None => "None"
  end.

(** [{subj: user_data[subj] for subj in selected_subjects}]; [None] is the
    [KeyError] of [user_data[subj]]. *)
Definition select_export_data (user_data : store)
    (selected_subjects : list string) : option store :=
  foldl (λ acc subj,
           export_data ← acc;
           qa_list ← dget subj user_data;
           Some (dset subj qa_list export_data))
        (Some []) selected_subjects.

(** The list [data] the CSV branch hands to [pd.DataFrame]. *)
Definition csv_rows (export_data : store) : list Row :=
  foldl (λ data '(subject, qa_list),
           foldl (λ data qa, data ++ [mk_row subject qa]) data qa_list)
        [] export_data.

(** The store and its entries as the Python values [json.dumps] is given. *)
Definition py_of_user (user : option string) : Json.json :=
  match user with
  | Some name => Json.JStr name
  | None => Json.JNull
  end.

Definition py_of_entry (qa : QAEntry) : Json.json :=
  Json.JObj [("question", Json.JStr (question qa));
             ("answer", Json.JStr (answer qa));
             ("timestamp", Json.JStr (timestamp qa));
             ("created_by", py_of_user (created_by qa))].

Definition py_of_store (data : store) : Json.json :=
  Json.JObj ((λ item, (item.1, Json.JArr (py_of_entry <$> item.2))) <$> data).

(** Reading a parsed document as a subject-to-entries mapping. *)
Definition entry_of_py (v : Json.json) : option QAEntry :=
  match v with
  | Json.JObj m =>
      match dget "question" m, dget "answer" m, dget "timestamp" m,
            dget "created_by" m with
      | Some (Json.JStr q), Some (Json.JStr a), Some (Json.JStr t),
        Some (Json.JStr u) =>
          Some {| question := q; answer := a; timestamp := t;
                  created_by := Some u |}
      | Some (Json.JStr q), Some (Json.JStr a), Some (Json.JStr t),
        Some Json.JNull =>
          Some {| question := q; answer := a; timestamp := t;
                  created_by := None |}
      | _, _, _, _ => None
      end
  | _ => None
  end.

Definition store_of_py (v : Json.json) : option store :=
  match v with
  | Json.JObj m =>
      mapM (λ item : string * Json.json,
              match item.2 with
              | Json.JArr items =>
                  qa_list ← mapM entry_of_py items; Some (item.1, qa_list)
              | _ => None
              end) m
  | _ => None
  end.

(** [json.dumps(export_data, indent=4)] *)
Definition json_str_of (export_data : store) : string :=
  Json.dumps (py_of_store export_data).

(** The calls [generate_pdf] makes on the [FPDF] object, in order. *)
Inductive PdfCall :=
  | set_auto_page_break (auto : bool) (margin : nat)
  | add_page
  | set_font (family style : string) (size : nat)
  | cell (w h : nat) (txt : string) (ln : bool) (align : string)
  | ln (h : nat)
  | multi_cell (w h : nat) (txt : string)
  | output (name : string).

(** [generate_pdf(data, username)]: the calls made and the file name
    returned. *)
Definition generate_pdf (data : store) (username : option string)
    : list PdfCall * string :=
  let pdf :=
    [set_auto_page_break true 15; add_page; set_font "Arial" "" 12;
     cell 200 10 ("Q&A Export for " +:+ str_of_user username) true "C";
     ln 10] in
  let pdf :=
    foldl (λ pdf '(subject, qa_list),
             let pdf := pdf ++ [set_font "Arial" "B" 12;
                                cell 200 10 subject true "";
                                set_font "Arial" "" 11] in
             foldl (λ pdf qa,
                      pdf ++ [multi_cell 0 10 ("Q: " +:+ question qa);
                              multi_cell 0 10 ("A: " +:+ answer qa);
                              cell 0 10 ("Date: " +:+ timestamp qa) true "";
                              ln 5])
                   pdf qa_list)
          pdf data in
  let pdf_file := "qna_export_" +:+ str_of_user username +:+ ".pdf" in
  (pdf ++ [output pdf_file], pdf_file).

(** Two line feeds, the ["\n\n"] of the Markdown branch. *)
Definition nl2 : string := String "010" (String "010" EmptyString).

(** [md_content] as the Markdown branch builds it. *)
Definition markdown_of (export_data : store) (user : option string) : string :=
  let md_content := "# Q&A Export for " +:+ str_of_user user +:+ nl2 in
  foldl (λ md_content '(subject, qa_list),
           let md_content := md_content +:+ ("## " +:+ subject +:+ nl2) in
           foldl (λ md_content qa,
                    let md_content :=
                      md_content +:+ ("### " +:+ question qa +:+ nl2) in
                    let md_content := md_content +:+ (answer qa +:+ nl2) in
                    md_content +:+ ("Date: " +:+ timestamp qa +:+ nl2
                                    +:+ "---" +:+ nl2))
                 md_content qa_list)
        md_content export_data.

(** What is handed to [st.download_button] as [data]. *)
Inductive Payload :=
  | CsvFrame (rows : list Row)
  | JsonText (json_str : string)
  | PdfFile (calls : list PdfCall)
  | MarkdownText (md_content : string).

Record Download := {
  payload : Payload;
  file_name : string;
  mime : string
}.

Section export_code.
(** The [FPDF] library on the file system at hand: whether it carries out
    the calls of [generate_pdf], the final [pdf.output(pdf_file)] included,
    without raising.  It raises, for one, when the file cannot be created
    (a username with a ['/'] names a directory that is not there) and when
    a text cannot be encoded for the font. *)
Variable fpdf_completes : list PdfCall → bool.

(** [export_qa] with the "Generate Export" button pressed; [None] when no
    download is offered: nothing to export, no subject selected, the
    [KeyError] of a selected subject that is not a key of [user_data], or
    an exception out of [generate_pdf], which ends the PDF branch before
    its [st.download_button]. *)
Definition export_qa (export_format : ExportFormat)
    (selected_subjects : list string) (st : State) : option Download :=
  let user_data := get_user_data st in
  if negb (truthy user_data) then None
  else if negb (truthy selected_subjects) then None
  else
    export_data ← select_export_data user_data selected_subjects;
    let user := str_of_user (current_user st) in
    match export_format with
    | CSV =>
        Some {| payload := CsvFrame (csv_rows export_data);
                file_name := "my_qna_export_" +:+ user +:+ ".csv";
                mime := "text/csv" |}
    | JSON =>
        Some {| payload := JsonText (json_str_of export_data);
                file_name := "my_qna_export_" +:+ user +:+ ".json";
                mime := "application/json" |}
    | PDF =>
        let pdf := generate_pdf export_data (current_user st) in
        if fpdf_completes pdf.1
        then Some {| payload := PdfFile pdf.1;
                     file_name := "my_qna_export_" +:+ user +:+ ".pdf";
                     mime := "application/pdf" |}
        else None
    | Markdown =>
        Some {| payload := MarkdownText
                             (markdown_of export_data (current_user st));
                file_name := "my_qna_export_" +:+ user +:+ ".md";
                mime := "text/markdown" |}
    end.
End export_code.

(** A file system and texts on which [FPDF] never raises, for running the
    examples. *)
Definition fpdf_always (calls : list PdfCall) : bool := true.

(** The pieces the outputs are made of. *)
Definition str_concat (pieces : list string) : string :=
  foldr String.append "" pieces.

Definition pdf_title (user : option string) : list PdfCall :=
  [set_auto_page_break true 15; add_page; set_font "Arial" "" 12;
   cell 200 10 ("Q&A Export for " +:+ str_of_user user) true "C"; ln 10].

Definition pdf_subject (subject : string) : list PdfCall :=
  [set_font "Arial" "B" 12; cell 200 10 subject true "";
   set_font "Arial" "" 11].

Definition pdf_entry (qa : QAEntry) : list PdfCall :=
  [multi_cell 0 10 ("Q: " +:+ question qa);
   multi_cell 0 10 ("A: " +:+ answer qa);
   cell 0 10 ("Date: " +:+ timestamp qa) true ""; ln 5].

(** The calls of a whole document: the title, then subject by subject the
    heading and one block per entry, then the file written. *)
Definition pdf_document (user : option string) (export_data : store)
    : list PdfCall :=
  pdf_title user
  ++ (export_data ≫= λ item, pdf_subject item.1 ++ (item.2 ≫= pdf_entry))
  ++ [output ("qna_export_" +:+ str_of_user user +:+ ".pdf")].

Definition md_title (user : option string) : string :=
  "# Q&A Export for " +:+ str_of_user user +:+ nl2.

Definition md_subject (subject : string) : string :=
  "## " +:+ subject +:+ nl2.

Definition md_entry (qa : QAEntry) : string :=
  ("### " +:+ question qa +:+ nl2)
  +:+ (answer qa +:+ nl2)
  +:+ ("Date: " +:+ timestamp qa +:+ nl2 +:+ "---" +:+ nl2).

(** The selected subjects, each with all its visible entries. *)
Definition selection_of (user_data : store) (selected_subjects : list string)
    : store :=
  (λ subj, (subj, default [] (dget subj user_data))) <$> selected_subjects.

(** Every (subject, entry) occurrence of a mapping, in order. *)
Definition entries_of (export_data : store) : list (string * QAEntry) :=
  export_data ≫= λ item, pair item.1 <$> item.2.

(** *** A small store to run the handlers on *)

(** [str.lower] on ASCII text, for running the search. *)
Definition ascii_lower (c : ascii) : ascii :=
  let n := N_of_ascii c in
  if decide (65 ≤ n ∧ n ≤ 90)%N then ascii_of_N (n + 32) else c.

Fixpoint lower_ascii (s : string) : string :=
  match s with
  | EmptyString => EmptyString
  | String c s' => String (ascii_lower c) (lower_ascii s')
  end.

Definition closure_qa : QAEntry :=
  {| question := "What is a closure?";
     answer := "A function together with its environment.";
     timestamp := "2024-03-01 10:00:00"; created_by := Some "alice" |}.

Definition recursion_qa : QAEntry :=
  {| question := "What is recursion?";
     answer := "A definition that refers to itself.";
     timestamp := "2024-03-01 10:05:00"; created_by := Some "alice" |}.

(** The same question and answer as [closure_qa], saved again later. *)
Definition closure_again : QAEntry :=
  {| question := "What is a closure?";
     answer := "A function together with its environment.";
     timestamp := "2024-03-02 18:30:00"; created_by := Some "alice" |}.

Definition bob_closure : QAEntry :=
  {| question := "What is a closure?";
     answer := "A function together with its environment.";
     timestamp := "2024-03-01 11:00:00"; created_by := Some "bob" |}.

Definition bob_prime : QAEntry :=
  {| question := "Is 91 prime?"; answer := "No: 7 * 13.";
     timestamp := "2024-03-03 09:00:00"; created_by := Some "bob" |}.

Definition alice_prime : QAEntry :=
  {| question := "Is 97 prime?"; answer := "Yes.";
     timestamp := "2024-03-04 09:00:00"; created_by := Some "alice" |}.

Definition demo_subjects : store :=
  [("Python", [bob_closure; closure_qa; recursion_qa; closure_again]);
   ("Math", [bob_prime]);
   ("Numbers", [alice_prime])].

(** Alice logged in, the edit form open on her closure entry. *)
Definition demo_state : State :=
  {| subjects := demo_subjects; current_user := Some "alice";
     authenticated := true;
     editing := Some {| ed_subject := "Python"; ed_index := 0;
                        ed_question := "What is a closure?";
                        ed_answer := "A function together with its environment." |};
     data_file := Some demo_subjects |}.

(** *** The owner filter *)

Lemma visible_item_key user item item' :
  visible_item user item = Some item' → item'.1 = item.1.
Proof.
  unfold visible_item. destruct (truthy _); [|done]. by intros [= <-].
Qed.

Lemma dkeys_omap_visible user (d : store) k :
  k ∈ dkeys (omap (visible_item user) d) → k ∈ dkeys d.
Proof.
  unfold dkeys. intros ([k' l'] & -> & Hin)%list_elem_of_fmap.
  apply list_elem_of_omap in Hin as (item & Hitem & Hv).
  apply visible_item_key in Hv. simpl in Hv. subst.
  apply list_elem_of_fmap. by exists item.
Qed.

Lemma wf_omap_visible user (d : store) : wf d → wf (omap (visible_item user) d).
Proof.
  unfold wf. induction d as [|[k l] d IH]; simpl; [done|].
  intros [Hk Hnd]%NoDup_cons.
  destruct (visible_item user (k, l)) as [[k' l']|] eqn:E; [|by apply IH].
  apply visible_item_key in E. simpl in E. subst k'.
  apply NoDup_cons. split; [|by apply IH].
  intros Hin. apply Hk. by eapply dkeys_omap_visible.
Qed.

(** The loop of [get_user_data] from any accumulator whose keys are not
    among those still to come. *)
Lemma get_user_data_loop user (d acc : store) :
  wf d → (∀ k, k ∈ dkeys d → k ∉ dkeys acc) →
  foldl (λ user_data '(subject, qa_list),
           let user_qa := filter (owned_by user) qa_list in
           if truthy user_qa then dset subject user_qa user_data
           else user_data) acc d
  = acc ++ omap (visible_item user) d.
Proof.
  revert acc. induction d as [|[k l] d IH]; intros acc Hwf Hfresh; simpl.
  - by rewrite app_nil_r.
  - apply NoDup_cons in Hwf as [Hk Hnd].
    unfold visible_item at 1. simpl.
    assert (Hkacc : k ∉ dkeys acc) by (apply Hfresh; left).
    destruct (truthy (filter (owned_by user) l)) eqn:E.
    + rewrite IH; [|done|].
      * rewrite dset_absent by done. by rewrite <- app_assoc.
      * intros k' Hk'. rewrite dset_absent by done.
        unfold dkeys. rewrite fmap_app. simpl.
        intros [Hin|Hin%list_elem_of_singleton]%elem_of_app.
        -- eapply Hfresh; [right; exact Hk'|done].
        -- subst. done.
    + apply IH; [done|]. intros k' Hk'. apply Hfresh. by right.
Qed.

Lemma get_user_data_omap st :
  wf (subjects st) →
  get_user_data st = omap (visible_item (current_user st)) (subjects st).
Proof.
  intros Hwf. unfold get_user_data.
  rewrite get_user_data_loop; [done|done|]. intros k _. apply not_elem_of_nil.
Qed.

Lemma dget_omap_visible user (d : store) s :
  wf d →
  dget s (omap (visible_item user) d)
  = l ← dget s d;
    (if truthy (filter (owned_by user) l)
     then Some (filter (owned_by user) l) else None).
Proof.
  unfold wf. induction d as [|[k l] d IH]; simpl; [done|].
  intros [Hk Hnd]%NoDup_cons.
  unfold visible_item at 1. simpl.
  destruct (decide (s = k)) as [->|Hne].
  - simpl. destruct (truthy (filter (owned_by user) l)) eqn:E.
    + simpl. by rewrite decide_True.
    + apply dget_None. intros Hin. apply Hk. by eapply dkeys_omap_visible.
  - destruct (truthy (filter (owned_by user) l)) eqn:E.
    + simpl. rewrite decide_False by done. by apply IH.
    + by apply IH.
Qed.

Lemma wf_get_user_data st : wf (subjects st) → wf (get_user_data st).
Proof.
  intros Hwf. rewrite get_user_data_omap by done. by apply wf_omap_visible.
Qed.

(** Under each subject, [get_user_data] holds the filtered list of the
    store (an absent subject counting as the empty list). *)
Lemma get_user_data_lookup st subject :
  wf (subjects st) →
  default [] (dget subject (get_user_data st))
  = filter (owned_by (current_user st))
           (default [] (dget subject (subjects st))).
Proof.
  intros Hwf. rewrite get_user_data_omap, dget_omap_visible by done.
  destruct (dget subject (subjects st)) as [l|]; simpl; [|done].
  destruct (filter (owned_by (current_user st)) l) eqn:E; simpl; done.
Qed.

(** C1: for a logged-in user, the data [get_user_data] hands to listing,
    search and export holds, under each subject, exactly the entries of that
    subject whose [created_by] is the user, in their order and multiplicity;
    a subject shared by name with another user shows none of the other
    user's entries. *)
Theorem get_user_data_exactly_owned (st : State) (user : string) :
  wf (subjects st) →
  current_user st = Some user →
  (∀ subject,
     default [] (dget subject (get_user_data st))
     = filter (λ qa, created_by qa = Some user)
              (default [] (dget subject (subjects st))))
  ∧ (∀ subject qa,
       (∃ l, dget subject (get_user_data st) = Some l ∧ qa ∈ l)
       ↔ (∃ l, dget subject (subjects st) = Some l ∧ qa ∈ l
               ∧ created_by qa = Some user)).
Proof.
  intros Hwf Hu.
  assert (Hget : ∀ subject,
     default [] (dget subject (get_user_data st))
     = filter (λ qa, created_by qa = Some user)
              (default [] (dget subject (subjects st)))).
  { intros subject. rewrite get_user_data_lookup by done. by rewrite Hu. }
  split; [done|].
  intros subject qa. split.
  - intros (l & Hl & Hin).
    specialize (Hget subject). rewrite Hl in Hget. simpl in Hget. subst l.
    apply list_elem_of_filter in Hin as [Hown Hin].
    destruct (dget subject (subjects st)) as [l0|]; simpl in Hin.
    + by exists l0.
    + by apply elem_of_nil in Hin.
  - intros (l & Hl & Hin & Hown).
    specialize (Hget subject). rewrite Hl in Hget. simpl in Hget.
    assert (Hq : qa ∈ filter (λ qa, created_by qa = Some user) l)
      by (by apply list_elem_of_filter).
    rewrite <- Hget in Hq.
    destruct (dget subject (get_user_data st)) as [l'|]; simpl in Hq.
    + by exists l'.
    + by apply elem_of_nil in Hq.
Qed.

Lemma wf_demo_subjects : wf demo_subjects.
Proof. apply (bool_decide_unpack _). by vm_compute. Defined.

Lemma get_user_data_exactly_owned_witness :
  wf (subjects demo_state)
  ∧ current_user demo_state = Some "alice"
  ∧ default [] (dget "Python" (get_user_data demo_state))
    = [closure_qa; recursion_qa; closure_again]
  ∧ ¬ ∃ l, dget "Python" (get_user_data demo_state) = Some l ∧ bob_closure ∈ l.
Proof.
  pose proof (get_user_data_exactly_owned demo_state "alice"
                wf_demo_subjects eq_refl) as [Hlists Hmem].
  split_and!.
  - exact wf_demo_subjects.
  - reflexivity.
  - rewrite (Hlists "Python"). reflexivity.
  - intros Hsees. apply (Hmem "Python" bob_closure) in Hsees.
    destruct Hsees as (l & _ & _ & Hown). discriminate Hown.
Defined.

(** *** Delete and edit *)

(** The first match of a scan, as a split of the list. *)
Lemma list_find_split {A} (P : A → Prop) `{∀ x, Decision (P x)}
    (l : list A) i x :
  list_find P l = Some (i, x) ↔
  ∃ l1 l2, l = l1 ++ x :: l2 ∧ length l1 = i ∧ P x ∧ Forall (λ y, ¬ P y) l1.
Proof.
  rewrite list_find_Some. split.
  - intros (Hi & HP & Hleast).
    exists (take i l), (drop (S i) l). split_and!.
    + by rewrite take_drop_middle.
    + apply length_take_le. apply lookup_lt_Some in Hi. lia.
    + done.
    + apply Forall_lookup. intros j y Hj.
      assert (j < i) by (apply lookup_lt_Some in Hj;
                         rewrite length_take in Hj; lia).
      rewrite lookup_take_lt in Hj by done. eauto.
  - intros (l1 & l2 & -> & <- & HP & Hall). split_and!.
    + by rewrite list_lookup_middle.
    + done.
    + intros j y Hj Hlt. rewrite lookup_app_l in Hj by done.
      by eapply (Forall_lookup_1 _ _ _ _ Hall).
Qed.

Lemma dget_Some_dkeys {V} k (v : V) (d : dict V) :
  dget k d = Some v → k ∈ dkeys d.
Proof.
  intros H. destruct (decide (k ∈ dkeys d)) as [|Hn]; [done|].
  apply dget_None in Hn. congruence.
Qed.

(** The handlers keep the store a dict: no subject is ever entered twice. *)
Lemma add_qa_wf subject question answer now st :
  wf (subjects st) → wf (subjects (add_qa subject question answer now st)).
Proof.
  intros Hwf. unfold add_qa. cbn [subjects save_data set_subjects].
  destruct (dmem subject (subjects st));
    destruct (dget subject _); auto using @wf_dset.
Qed.

Lemma delete_button_wf selected_subject qa st st' :
  wf (subjects st) → delete_button selected_subject qa st = Ok st' →
  wf (subjects st').
Proof.
  intros Hwf. unfold delete_button.
  destruct (dget selected_subject (subjects st)) as [l|]; [|done].
  destruct (list_find _ l) as [[idx item]|]; intros [= <-]; [|done].
  by apply wf_dset.
Qed.

Lemma save_changes_wf new_question new_answer now st st' :
  wf (subjects st) → save_changes new_question new_answer now st = Ok st' →
  wf (subjects st').
Proof.
  intros Hwf. unfold save_changes.
  destruct (editing st) as [ed|]; [|by intros [= <-]].
  destruct (dget (ed_subject ed) (subjects st)) as [l|]; [|done].
  destruct (list_find _ l) as [[idx item]|]; intros [= <-]; [|done].
  by apply wf_dset.
Qed.

(** C4: when the subject's list holds an entry that agrees with the clicked
    one on question and answer and whose creator is the acting user, the
    delete handler removes the first such entry and nothing else: the list
    loses exactly that one element, every other subject keeps its list, and
    the file is rewritten with the result. *)
Theorem delete_button_removes_first_match
    (st : State) (selected_subject : string) (qa : QAEntry)
    (full_qa_list : list QAEntry) :
  dget selected_subject (subjects st) = Some full_qa_list →
  (∃ item, item ∈ full_qa_list
           ∧ same_qa (question qa) (answer qa) (current_user st) item) →
  ∃ l1 item l2 st',
    full_qa_list = l1 ++ item :: l2
    ∧ same_qa (question qa) (answer qa) (current_user st) item
    ∧ Forall (λ x, ¬ same_qa (question qa) (answer qa) (current_user st) x) l1
    ∧ delete_button selected_subject qa st = Ok st'
    ∧ dget selected_subject (subjects st') = Some (l1 ++ l2)
    ∧ S (length (l1 ++ l2)) = length full_qa_list
    ∧ (∀ s, s ≠ selected_subject →
            dget s (subjects st') = dget s (subjects st))
    ∧ dkeys (subjects st') = dkeys (subjects st)
    ∧ data_file st' = Some (subjects st').
Proof.
  intros Hget (item0 & Hin & Hsame).
  destruct (list_find_elem_of _ _ _ Hin Hsame) as [[idx item] Hfind].
  pose proof Hfind as Hsplit.
  apply list_find_split in Hsplit as (l1 & l2 & -> & <- & HP & Hall).
  pose (subjects' := dset selected_subject (l1 ++ l2) (subjects st)).
  exists l1, item, l2, (save_data subjects' (set_subjects subjects' st)).
  subst subjects'. split_and!; try done.
  - unfold delete_button. by rewrite Hget, Hfind, delete_middle.
  - simpl. by rewrite dget_dset_eq.
  - rewrite !length_app. simpl. lia.
  - intros s Hne. simpl. by rewrite dget_dset_ne.
  - simpl. apply dkeys_dset_present. by eapply dget_Some_dkeys.
Qed.

(** Alice clicks Delete on the later of her two identical closure entries:
    the earlier one goes, and only that one. *)
Lemma delete_button_removes_first_match_witness :
  dget "Python" (subjects demo_state)
  = Some [bob_closure; closure_qa; recursion_qa; closure_again]
  ∧ ∃ st', delete_button "Python" closure_again demo_state = Ok st'
           ∧ S (length (default [] (dget "Python" (subjects st')))) = 4
           ∧ dget "Math" (subjects st') = Some [bob_prime].
Proof.
  split; [reflexivity|].
  destruct (delete_button_removes_first_match demo_state "Python" closure_again
              [bob_closure; closure_qa; recursion_qa; closure_again] eq_refl)
    as (l1 & item & l2 & st' & _ & _ & _ & Hrun & Hget & Hlen & Hothers & _).
  - exists closure_qa. split; [right; left|repeat split].
  - exists st'. split_and!.
    + exact Hrun.
    + rewrite Hget. exact Hlen.
    + rewrite (Hothers "Math"); [reflexivity|discriminate].
Defined.

(** C9: the delete handler never removes a subject: after any completed
    delete the store has the same keys in the same order, and a subject whose
    only entry was deleted stays in the store, and in the rewritten file,
    with an empty list. *)
Theorem delete_button_keeps_subject
    (st st' : State) (selected_subject : string) (qa : QAEntry) :
  delete_button selected_subject qa st = Ok st' →
  dkeys (subjects st') = dkeys (subjects st)
  ∧ dmem selected_subject (subjects st') = true
  ∧ (∀ item, dget selected_subject (subjects st) = Some [item] →
             same_qa (question qa) (answer qa) (current_user st) item →
             dget selected_subject (subjects st') = Some []
             ∧ (load_data st') = subjects st'
             ∧ dmem selected_subject (load_data st') = true).
Proof.
  unfold delete_button.
  destruct (dget selected_subject (subjects st)) as [l|] eqn:Hget; [|done].
  assert (Hk : selected_subject ∈ dkeys (subjects st))
    by (by eapply dget_Some_dkeys).
  destruct (list_find _ l) as [[idx item']|] eqn:Hfind.
  - intros [= <-]. simpl. split_and!.
    + by apply dkeys_dset_present.
    + unfold dmem. by rewrite dget_dset_eq.
    + intros item [= ->] Hsame. split_and!.
      * rewrite dget_dset_eq.
        apply list_find_Some in Hfind as (Hi & _ & _).
        apply list_lookup_singleton_Some in Hi as [-> _]. done.
      * done.
      * unfold load_data, dmem. simpl. by rewrite dget_dset_eq.
  - intros [= <-]. split_and!; [done|unfold dmem; by rewrite Hget|].
    intros item [= ->] Hsame.
    apply list_find_None in Hfind. rewrite Forall_singleton in Hfind.
    exfalso. by apply Hfind.
Qed.

Lemma delete_button_keeps_subject_witness :
  ∃ st', delete_button "Numbers" alice_prime demo_state = Ok st'
         ∧ dget "Numbers" (subjects st') = Some []
         ∧ dkeys (subjects st') = ["Python"; "Math"; "Numbers"].
Proof.
  eexists. split; [reflexivity|].
  pose proof (delete_button_keeps_subject demo_state _ "Numbers" alice_prime
                eq_refl) as (Hkeys & _ & Hlast).
  split.
  - apply (Hlast alice_prime); [reflexivity|repeat split].
  - exact Hkeys.
Defined.

(** C5: the edit handler rewrites the first entry of the subject's list
    that agrees with the values under edit on question and answer and whose
    creator is the acting user: its question, answer and timestamp are
    replaced where it stands, and the file is rewritten; when no entry
    matches, neither the store nor the file changes. *)
Theorem save_changes_edits_first_match
    (st : State) (ed : Editing) (new_question new_answer now : string)
    (full_qa_list : list QAEntry) :
  editing st = Some ed →
  dget (ed_subject ed) (subjects st) = Some full_qa_list →
  (∀ l1 item l2,
     full_qa_list = l1 ++ item :: l2 →
     Forall (λ x, ¬ same_qa (ed_question ed) (ed_answer ed)
                            (current_user st) x) l1 →
     same_qa (ed_question ed) (ed_answer ed) (current_user st) item →
     ∃ st', save_changes new_question new_answer now st = Ok st'
       ∧ dget (ed_subject ed) (subjects st')
         = Some (l1 ++ {| question := new_question; answer := new_answer;
                          timestamp := now;
                          created_by := created_by item |} :: l2)
       ∧ dkeys (subjects st') = dkeys (subjects st)
       ∧ data_file st' = Some (subjects st'))
  ∧ (Forall (λ x, ¬ same_qa (ed_question ed) (ed_answer ed)
                            (current_user st) x) full_qa_list →
     ∃ st', save_changes new_question new_answer now st = Ok st'
       ∧ subjects st' = subjects st
       ∧ data_file st' = data_file st).
Proof.
  intros Hed Hget. split.
  - intros l1 item l2 -> Hall HP.
    assert (Hfind : list_find (same_qa (ed_question ed) (ed_answer ed)
                                       (current_user st)) (l1 ++ item :: l2)
                    = Some (length l1, item)).
    { apply list_find_split. by exists l1, l2. }
    unfold save_changes. rewrite Hed, Hget, Hfind.
    eexists. split; [reflexivity|]. simpl. split_and!.
    + rewrite dget_dset_eq. f_equal.
      rewrite insert_app_r_alt by done. by rewrite Nat.sub_diag.
    + apply dkeys_dset_present. by eapply dget_Some_dkeys.
    + done.
  - intros Hall. apply (list_find_None (same_qa _ _ _)) in Hall.
    unfold save_changes. rewrite Hed, Hget, Hall.
    by eexists.
Qed.

Lemma save_changes_edits_first_match_witness :
  (∃ st', save_changes "What is a closure in Python?" "See PEP 227."
                       "2024-04-01 12:00:00" demo_state = Ok st'
          ∧ dget "Python" (subjects st')
            = Some [bob_closure;
                    {| question := "What is a closure in Python?";
                       answer := "See PEP 227.";
                       timestamp := "2024-04-01 12:00:00";
                       created_by := Some "alice" |};
                    recursion_qa; closure_again])
  ∧ (∃ st', save_changes "What is a closure in Python?" "See PEP 227."
                         "2024-04-01 12:00:00"
                         (with_user (Some "carol") demo_state) = Ok st'
            ∧ subjects st' = demo_subjects
            ∧ data_file st' = Some demo_subjects).
Proof.
  split.
  - destruct (save_changes_edits_first_match demo_state
                {| ed_subject := "Python"; ed_index := 0;
                   ed_question := "What is a closure?";
                   ed_answer := "A function together with its environment." |}
                "What is a closure in Python?" "See PEP 227."
                "2024-04-01 12:00:00"
                [bob_closure; closure_qa; recursion_qa; closure_again]
                eq_refl eq_refl) as [Hedit _].
    destruct (Hedit [bob_closure] closure_qa [recursion_qa; closure_again])
      as (st' & Hrun & Hget & _).
    + reflexivity.
    + repeat constructor. intros (_ & _ & Hc). discriminate Hc.
    + repeat split.
    + exists st'. split; [exact Hrun|exact Hget].
  - destruct (save_changes_edits_first_match
                (with_user (Some "carol") demo_state)
                {| ed_subject := "Python"; ed_index := 0;
                   ed_question := "What is a closure?";
                   ed_answer := "A function together with its environment." |}
                "What is a closure in Python?" "See PEP 227."
                "2024-04-01 12:00:00"
                [bob_closure; closure_qa; recursion_qa; closure_again]
                eq_refl eq_refl) as [_ Hnone].
    apply Hnone.
    repeat constructor; intros (_ & _ & Hc); discriminate Hc.
Defined.

Lemma dget_app_fresh {V} k (v : V) (d1 d2 : dict V) :
  k ∉ dkeys d1 → dget k (d1 ++ (k, v) :: d2) = Some v.
Proof.
  unfold dkeys. induction d1 as [|[k' v'] d1 IH]; simpl.
  - intros _. by rewrite decide_True.
  - intros [Hne Hk]%not_elem_of_cons. rewrite decide_False by done. auto.
Qed.

(** Replacing a subject's list by one with the same entries of [other]
    leaves what [other] sees untouched. *)
Lemma omap_visible_dset other s (l l' : list QAEntry) (d : store) :
  wf d → dget s d = Some l →
  filter (owned_by other) l' = filter (owned_by other) l →
  omap (visible_item other) (dset s l' d) = omap (visible_item other) d.
Proof.
  intros Hwf Hget Hfilter.
  destruct (dset_present_split s l' d Hwf) as (d1 & v0 & d2 & Hd & H1 & _ & Hset).
  { by eapply dget_Some_dkeys. }
  rewrite Hset. rewrite Hd in Hget |- *.
  rewrite dget_app_fresh in Hget by done. injection Hget as ->.
  rewrite !omap_app. f_equal. simpl. unfold visible_item at 1 3. simpl.
  by rewrite Hfilter.
Qed.

(** C10: an edit that finds its entry leaves that entry's [created_by] as
    it was, leaves every other position of the list and every other
    subject's list as they were, and so changes nothing of what any other
    identity gets from [get_user_data]. *)
Theorem save_changes_frame
    (st : State) (ed : Editing) (new_question new_answer now : string)
    (full_qa_list : list QAEntry) (idx : nat) (item : QAEntry) :
  wf (subjects st) →
  editing st = Some ed →
  dget (ed_subject ed) (subjects st) = Some full_qa_list →
  list_find (same_qa (ed_question ed) (ed_answer ed) (current_user st))
            full_qa_list = Some (idx, item) →
  ∃ st' full_qa_list' item',
    save_changes new_question new_answer now st = Ok st'
    ∧ dget (ed_subject ed) (subjects st') = Some full_qa_list'
    ∧ full_qa_list' !! idx = Some item'
    ∧ created_by item' = created_by item
    ∧ length full_qa_list' = length full_qa_list
    ∧ (∀ j, j ≠ idx → full_qa_list' !! j = full_qa_list !! j)
    ∧ (∀ s, s ≠ ed_subject ed →
            dget s (subjects st') = dget s (subjects st))
    ∧ dkeys (subjects st') = dkeys (subjects st)
    ∧ (∀ other, other ≠ current_user st →
         get_user_data (with_user other st')
         = get_user_data (with_user other st)).
Proof.
  intros Hwf Hed Hget Hfind.
  pose (item' := edited new_question new_answer now item).
  pose (l' := <[idx := item']> full_qa_list).
  pose (subjects' := dset (ed_subject ed) l' (subjects st)).
  exists (del_editing (save_data subjects' (set_subjects subjects' st))),
         l', item'.
  pose proof Hfind as (Hidx & HP & _)%list_find_Some.
  split_and!.
  - unfold save_changes. by rewrite Hed, Hget, Hfind.
  - simpl. apply dget_dset_eq.
  - apply list_lookup_insert_eq. by eapply lookup_lt_Some.
  - done.
  - apply length_insert.
  - intros j Hj. by apply list_lookup_insert_ne.
  - intros s Hne. simpl. by apply dget_dset_ne.
  - simpl. apply dkeys_dset_present. by eapply dget_Some_dkeys.
  - intros other Hother.
    rewrite !get_user_data_omap; simpl; [|done|by apply wf_dset].
    apply (omap_visible_dset _ _ full_qa_list); [done..|].
    apply list_find_split in Hfind as (l1 & l2 & -> & <- & _ & _).
    subst l'. rewrite insert_app_r_alt, Nat.sub_diag by done. simpl.
    rewrite !filter_app. f_equal.
    destruct HP as (_ & _ & Hc).
    rewrite !filter_cons_False; [done| |]; unfold owned_by; simpl; congruence.
Qed.

Lemma save_changes_frame_witness :
  ∃ st', save_changes "What is a closure in Python?" "See PEP 227."
                      "2024-04-01 12:00:00" demo_state = Ok st'
         ∧ dget "Math" (subjects st') = Some [bob_prime]
         ∧ get_user_data (with_user (Some "bob") st')
           = [("Python", [bob_closure]); ("Math", [bob_prime])].
Proof.
  destruct (save_changes_frame demo_state
              {| ed_subject := "Python"; ed_index := 0;
                 ed_question := "What is a closure?";
                 ed_answer := "A function together with its environment." |}
              "What is a closure in Python?" "See PEP 227."
              "2024-04-01 12:00:00"
              [bob_closure; closure_qa; recursion_qa; closure_again]
              1 closure_qa wf_demo_subjects eq_refl eq_refl eq_refl)
    as (st' & l' & item' & Hrun & _ & _ & _ & _ & _ & Hothers & _ & Hview).
  exists st'. split_and!.
  - exact Hrun.
  - rewrite (Hothers "Math"); [reflexivity|discriminate].
  - rewrite (Hview (Some "bob")); [reflexivity|discriminate].
Defined.

(** *** Search *)

Lemma starts_with_spec p s : starts_with p s = true ↔ ∃ post, s = p +:+ post.
Proof.
  revert s. induction p as [|a p IH]; intros s; simpl.
  - split; [intros _; by exists s | done].
  - destruct s as [|b s].
    + split; [done | by intros [post ?]].
    + rewrite andb_true_iff, bool_decide_eq_true, IH. split.
      * intros [-> [post ->]]. by exists post.
      * intros [post [= -> ->]]. split; [done|by exists post].
Qed.

Lemma str_in_spec needle hay : str_in needle hay = true ↔ substring_of needle hay.
Proof.
  unfold substring_of. induction hay as [|b hay IH]; simpl.
  - rewrite orb_false_r, starts_with_spec. split.
    + intros [post H]. by exists "", post.
    + intros ([|? ?] & post & H); [by exists post|done].
  - rewrite orb_true_iff, starts_with_spec, IH. split.
    + intros [[post H]|(pre & post & ->)].
      * by exists "", post.
      * by exists (String b pre), post.
    + intros ([|c pre] & post & H).
      * left. by exists post.
      * right. injection H as -> ->. by exists pre, post.
Qed.

#[global] Instance substring_of_dec needle hay : Decision (substring_of needle hay).
Proof.
  destruct (str_in needle hay) eqn:E.
  - left. by apply str_in_spec.
  - right. intros H%str_in_spec. congruence.
Defined.

Section search_facts.
Variable lower : string → string.

#[global] Instance matches_dec search_term qa : Decision (matches lower search_term qa).
Proof. unfold matches. apply _. Defined.

Lemma term_hits_matches search_term qa :
  term_hits lower search_term qa = true ↔ matches lower search_term qa.
Proof. unfold term_hits, matches. by rewrite orb_true_iff, !str_in_spec. Qed.

(** The inner loop of [search_qa] appends the rows of the hits, in order. *)
Lemma search_inner_loop search_term subject (qa_list : list QAEntry) results :
  foldl (λ results qa,
           if term_hits lower search_term qa
           then results ++ [mk_row subject qa] else results)
        results qa_list
  = results ++ (mk_row subject <$> filter (matches lower search_term) qa_list).
Proof.
  revert results. induction qa_list as [|qa l IH]; intros results; simpl.
  - by rewrite app_nil_r.
  - rewrite IH. destruct (term_hits lower search_term qa) eqn:E.
    + rewrite filter_cons_True by (by apply term_hits_matches).
      by rewrite <- app_assoc.
    + rewrite filter_cons_False; [done|].
      intros H%term_hits_matches. congruence.
Qed.

Lemma search_outer_loop search_term (user_data : store) results :
  foldl (λ results '(subject, qa_list),
           foldl (λ results qa,
                    if term_hits lower search_term qa
                    then results ++ [mk_row subject qa] else results)
                 results qa_list)
        results user_data
  = results ++ (user_data ≫= λ '(subject, qa_list),
                  mk_row subject <$> filter (matches lower search_term) qa_list).
Proof.
  revert results. induction user_data as [|[s l] d IH]; intros results; simpl.
  - by rewrite app_nil_r.
  - rewrite IH, search_inner_loop. by rewrite <- app_assoc.
Qed.

(** Dropping the subjects without visible entries drops no row. *)
Lemma bind_omap_visible {B} user (d : store)
    (f : string → list QAEntry → list B) :
  (∀ s, f s [] = []) →
  (omap (visible_item user) d ≫= λ item, f item.1 item.2)
  = (d ≫= λ item, f item.1 (filter (owned_by user) item.2)).
Proof.
  intros Hnil. induction d as [|[s l] d IH]; [done|].
  rewrite bind_cons. cbn [omap list_omap]. unfold visible_item at 1.
  cbn [fst snd].
  destruct (filter (owned_by user) l) as [|qa l'] eqn:E; cbn [truthy].
  - by rewrite Hnil, IH.
  - by rewrite bind_cons, IH.
Qed.

(** C6: for a logged-in owner and a non-empty term, [search_qa] returns one
    row for each entry of the store that the owner created and that the
    term matches (lower-cased term inside the lower-cased question or
    answer), and nothing else; the row holds the entry's subject, question,
    answer and timestamp; the rows come subject by subject in the store's
    order and, within a subject, in the order of its list.  Two terms with
    the same lower-casing give the same result. *)
Theorem search_qa_exactly_matches
    (st : State) (owner search_term : string) :
  wf (subjects st) →
  current_user st = Some owner →
  search_term ≠ "" →
  search_qa lower search_term st
  = Some (subjects st ≫= λ '(subject, qa_list),
            (λ qa, {| Subject := subject; Question := question qa;
                      Answer := answer qa; Date := timestamp qa |})
              <$> filter (λ qa, created_by qa = Some owner
                                ∧ matches lower search_term qa) qa_list)
  ∧ (∀ term', term' ≠ "" → lower term' = lower search_term →
       search_qa lower term' st = search_qa lower search_term st).
Proof.
  intros Hwf Hu Hterm.
  assert (Hres : ∀ t, t ≠ "" →
    search_qa lower t st
    = Some (subjects st ≫= λ '(subject, qa_list),
              mk_row subject
                <$> filter (λ qa, created_by qa = Some owner
                                  ∧ matches lower t qa) qa_list)).
  { intros t Ht. unfold search_qa.
    destruct t as [|c t]; [done|]. cbn [str_truthy]. f_equal.
    rewrite search_outer_loop, app_nil_l.
    rewrite get_user_data_omap by done.
    etrans; [apply list_bind_ext; [|done]|].
    { intros [s l].
      exact (eq_refl ((λ item : string * list QAEntry,
                         mk_row item.1 <$> filter (matches lower (String c t)) item.2)
                        (s, l))). }
    rewrite (bind_omap_visible _ _
               (λ s l, mk_row s <$> filter (matches lower (String c t)) l)) by done.
    apply list_bind_ext; [|done]. intros [s l]. cbn [fst snd].
    rewrite list_filter_filter, Hu. f_equal.
    apply list_filter_iff. intros qa. unfold owned_by. tauto. }
  split; [exact (Hres search_term Hterm)|].
  intros term' Hterm' Hlow. rewrite !Hres by done. f_equal.
  apply list_bind_ext; [|done]. intros [s l]. f_equal.
  apply list_filter_iff. intros qa. unfold matches. by rewrite Hlow.
Qed.
End search_facts.

Lemma search_qa_exactly_matches_witness :
  search_qa lower_ascii "CLOSURE" demo_state
  = Some [{| Subject := "Python"; Question := "What is a closure?";
             Answer := "A function together with its environment.";
             Date := "2024-03-01 10:00:00" |};
          {| Subject := "Python"; Question := "What is a closure?";
             Answer := "A function together with its environment.";
             Date := "2024-03-02 18:30:00" |}]
  ∧ search_qa lower_ascii "Closure" demo_state
    = search_qa lower_ascii "CLOSURE" demo_state.
Proof.
  destruct (search_qa_exactly_matches lower_ascii demo_state "alice" "CLOSURE"
              wf_demo_subjects eq_refl) as [Hrows Hcase]; [discriminate|].
  split.
  - rewrite Hrows. vm_compute. reflexivity.
  - apply Hcase; [discriminate|reflexivity].
Defined.

(** The example of the specification: of alice's two entries, "closure"
    finds the first only, and so does "CLOSURE". *)
Example search_closure :
  let st := {| subjects := [("Python", [closure_qa; recursion_qa])];
               current_user := Some "alice"; authenticated := true;
               editing := None; data_file := None |} in
  search_qa lower_ascii "closure" st
  = Some [{| Subject := "Python"; Question := "What is a closure?";
             Answer := "A function together with its environment.";
             Date := "2024-03-01 10:00:00" |}]
  ∧ search_qa lower_ascii "CLOSURE" st
    = Some [{| Subject := "Python"; Question := "What is a closure?";
               Answer := "A function together with its environment.";
               Date := "2024-03-01 10:00:00" |}].
Proof. split; reflexivity. Qed.

(** *** Export *)

Lemma py_of_entry_jwf qa : Json.jwf (py_of_entry qa).
Proof.
  constructor.
  - unfold wf, dkeys. cbn. apply (bool_decide_unpack _). by vm_compute.
  - unfold py_of_user. repeat constructor. destruct (created_by qa); constructor.
Qed.

Lemma py_of_store_jwf (data : store) : wf data → Json.jwf (py_of_store data).
Proof.
  intros Hwf. constructor.
  - unfold wf, dkeys in *. by rewrite <- list_fmap_compose.
  - apply Forall_fmap, Forall_forall. intros [s l] _. cbn.
    constructor. apply Forall_fmap, Forall_forall. intros qa _.
    apply py_of_entry_jwf.
Qed.

Lemma entry_of_py_of_entry qa : entry_of_py (py_of_entry qa) = Some qa.
Proof. destruct qa as [q a t [u|]]; reflexivity. Qed.

Lemma store_of_py_of_store (data : store) :
  store_of_py (py_of_store data) = Some data.
Proof.
  unfold store_of_py, py_of_store. apply mapM_fmap_Some. intros [s l]. cbn.
  rewrite (mapM_fmap_Some entry_of_py py_of_entry); [done|].
  apply entry_of_py_of_entry.
Qed.

(** C7: the JSON export of a subject-to-entries mapping, parsed again, is
    the mapping it was made from: the same subjects in the same order, each
    with the same entries in the same order, every field as it was. *)
Theorem json_export_round_trip (export_data : store) :
  wf export_data →
  Json.loads (json_str_of export_data) = Some (py_of_store export_data)
  ∧ Json.loads (json_str_of export_data) ≫= store_of_py = Some export_data.
Proof.
  intros Hwf.
  assert (H : Json.loads (json_str_of export_data)
              = Some (py_of_store export_data)).
  { apply Json.loads_dumps. by apply py_of_store_jwf. }
  split; [done|]. rewrite H. cbn. apply store_of_py_of_store.
Qed.

Lemma json_export_round_trip_witness :
  wf demo_subjects
  ∧ Json.loads (json_str_of demo_subjects) = Some (py_of_store demo_subjects)
  ∧ Json.loads (json_str_of demo_subjects) ≫= store_of_py = Some demo_subjects.
Proof.
  split; [exact wf_demo_subjects|].
  exact (json_export_round_trip demo_subjects wf_demo_subjects).
Defined.

Lemma str_app_assoc (a b c : string) : (a +:+ b) +:+ c = a +:+ (b +:+ c).
Proof.
  induction a as [|x a IH]; [done|].
  change (String x ((a +:+ b) +:+ c) = String x (a +:+ (b +:+ c))).
  by rewrite IH.
Qed.

Lemma str_app_nil_r (a : string) : a +:+ "" = a.
Proof.
  induction a as [|x a IH]; [done|].
  change (String x (a +:+ "") = String x a). by rewrite IH.
Qed.

Lemma select_export_data_loop (user_data : store) (sel : list string) :
  ∀ acc : store,
    NoDup sel →
    (∀ s, s ∈ sel → s ∈ dkeys user_data ∧ s ∉ dkeys acc) →
    foldl (λ acc subj,
             export_data ← acc;
             qa_list ← dget subj user_data;
             Some (dset subj qa_list export_data))
          (Some acc) sel
    = Some (acc ++ selection_of user_data sel).
Proof.
  induction sel as [|s sel IH]; intros acc Hnd Hsel.
  - cbn. by rewrite app_nil_r.
  - apply NoDup_cons in Hnd as [Hs Hnd].
    destruct (Hsel s) as [Hin Hfresh]; [left|].
    destruct (dget s user_data) as [l|] eqn:Hget;
      [|apply dget_None in Hget; done].
    cbn [foldl]. cbn [mbind option_bind]. rewrite Hget. cbn [mbind option_bind].
    rewrite dset_absent by done. rewrite IH; [|done|].
    + unfold selection_of. cbn [fmap list_fmap]. rewrite Hget.
      by rewrite <- app_assoc.
    + intros s' Hs'. destruct (Hsel s') as [? ?]; [by right|].
      split; [done|]. unfold dkeys. rewrite fmap_app.
      intros [?|Heq%list_elem_of_singleton]%elem_of_app; [done|].
      cbn in Heq. by subst.
Qed.

Lemma select_export_data_spec (user_data : store) (sel : list string) :
  NoDup sel → (∀ s, s ∈ sel → s ∈ dkeys user_data) →
  select_export_data user_data sel = Some (selection_of user_data sel).
Proof.
  intros Hnd Hsel. unfold select_export_data.
  rewrite select_export_data_loop; [done|done|].
  intros s Hs. split; [auto|apply not_elem_of_nil].
Qed.

Lemma wf_selection_of (user_data : store) (sel : list string) :
  NoDup sel → wf (selection_of user_data sel).
Proof.
  intros Hnd. unfold wf, dkeys, selection_of.
  rewrite <- list_fmap_compose. by rewrite list_fmap_id.
Qed.

Lemma csv_rows_spec (export_data : store) :
  csv_rows export_data
  = (λ e : string * QAEntry, mk_row e.1 e.2) <$> entries_of export_data.
Proof.
  unfold csv_rows, entries_of.
  assert (Hin : ∀ subject (l : list QAEntry) data,
    foldl (λ data qa, data ++ [mk_row subject qa]) data l
    = data ++ (mk_row subject <$> l)).
  { intros subject l. induction l as [|qa l IH]; intros data; cbn.
    - by rewrite app_nil_r.
    - by rewrite IH, <- app_assoc. }
  assert (Hout : ∀ (d : store) data,
    foldl (λ data '(subject, qa_list),
             foldl (λ data qa, data ++ [mk_row subject qa]) data qa_list)
          data d
    = data ++ ((λ e : string * QAEntry, mk_row e.1 e.2)
                 <$> (d ≫= λ item, pair item.1 <$> item.2))).
  { intros d. induction d as [|[s l] d IH]; intros data.
    - cbn. by rewrite app_nil_r.
    - cbn [foldl]. rewrite IH, Hin, bind_cons, fmap_app, <- app_assoc.
      cbn [fst snd]. by rewrite <- list_fmap_compose. }
  by rewrite Hout.
Qed.

Lemma generate_pdf_spec (data : store) (user : option string) :
  (generate_pdf data user).1
  = pdf_title user
    ++ (data ≫= λ item, pdf_subject item.1 ++ (item.2 ≫= pdf_entry))
    ++ [output ("qna_export_" +:+ str_of_user user +:+ ".pdf")].
Proof.
  unfold generate_pdf. cbn [fst]. fold (pdf_title user).
  rewrite app_assoc. f_equal.
  assert (Hin : ∀ (l : list QAEntry) pdf,
    foldl (λ pdf qa, pdf ++ pdf_entry qa) pdf l = pdf ++ (l ≫= pdf_entry)).
  { intros l. induction l as [|qa l IH]; intros pdf.
    - cbn. by rewrite app_nil_r.
    - cbn [foldl]. by rewrite IH, bind_cons, <- app_assoc. }
  generalize (pdf_title user).
  induction data as [|[s l] d IH]; intros pdf.
  - cbn. by rewrite app_nil_r.
  - cbn [foldl]. fold (pdf_subject s).
    change (λ pdf0 qa, pdf0 ++ _) with (λ pdf0 qa, pdf0 ++ pdf_entry qa).
    rewrite Hin, IH, bind_cons. cbn [fst snd]. by rewrite <- !app_assoc.
Qed.

Lemma markdown_of_spec (export_data : store) (user : option string) :
  markdown_of export_data user
  = md_title user
    +:+ str_concat (export_data ≫= λ item,
                      md_subject item.1 :: (md_entry <$> item.2)).
Proof.
  unfold markdown_of. fold (md_title user).
  assert (Hin : ∀ (l : list QAEntry) md,
    foldl (λ md qa,
             ((md +:+ ("### " +:+ question qa +:+ nl2))
              +:+ (answer qa +:+ nl2))
             +:+ ("Date: " +:+ timestamp qa +:+ nl2 +:+ "---" +:+ nl2))
          md l
    = md +:+ str_concat (md_entry <$> l)).
  { intros l. induction l as [|qa l IH]; intros md.
    - cbn. by rewrite str_app_nil_r.
    - cbn [foldl]. rewrite IH. cbn [fmap list_fmap str_concat foldr].
      unfold md_entry. by rewrite !str_app_assoc. }
  assert (Hcat : ∀ a b, str_concat (a ++ b) = str_concat a +:+ str_concat b).
  { intros a b. induction a as [|x a IH]; [done|].
    cbn [app str_concat foldr]. fold (str_concat (a ++ b)).
    fold (str_concat a). by rewrite IH, str_app_assoc. }
  generalize (md_title user).
  induction export_data as [|[s l] d IH]; intros md.
  - cbn. by rewrite str_app_nil_r.
  - cbn [foldl]. fold (md_subject s). rewrite Hin, IH, bind_cons.
    cbn [fst snd]. rewrite Hcat.
    change (str_concat (md_subject s :: (md_entry <$> l)))
      with (md_subject s +:+ str_concat (md_entry <$> l)).
    by rewrite !str_app_assoc.
Qed.

(** C8: for a logged-in user and a selection of subjects among those
    offered (each once), the export carries, for every selected subject, all
    the entries of that subject the user created, each once and in order:
    the CSV frame has one row per entry, holding the entry's subject,
    question, answer and timestamp; the JSON text parses back to the
    selected mapping; the Markdown text is a title followed, subject by
    subject, by the subject's heading and one block per entry of that
    subject; the PDF calls are laid out the same way, and the PDF download
    is offered exactly when [FPDF] carries these calls out without raising
    (no download otherwise). *)
Theorem export_qa_every_entry_once
    (fpdf_completes : list PdfCall → bool)
    (st : State) (user : string) (selected_subjects : list string) :
  wf (subjects st) →
  current_user st = Some user →
  selected_subjects ≠ [] →
  NoDup selected_subjects →
  (∀ s, s ∈ selected_subjects → s ∈ dkeys (get_user_data st)) →
  selection_of (get_user_data st) selected_subjects
  = (λ subj, (subj, filter (λ qa, created_by qa = Some user)
                           (default [] (dget subj (subjects st)))))
      <$> selected_subjects
  ∧ (∃ d, export_qa fpdf_completes CSV selected_subjects st = Some d
        ∧ payload d
          = CsvFrame
              ((λ e : string * QAEntry,
                  {| Subject := e.1; Question := question e.2;
                     Answer := answer e.2; Date := timestamp e.2 |})
                 <$> entries_of (selection_of (get_user_data st)
                                              selected_subjects)))
  ∧ (∃ d json_str, export_qa fpdf_completes JSON selected_subjects st = Some d
        ∧ payload d = JsonText json_str
        ∧ Json.loads json_str ≫= store_of_py
          = Some (selection_of (get_user_data st) selected_subjects))
  ∧ payload <$> export_qa fpdf_completes PDF selected_subjects st
    = (if fpdf_completes
            (pdf_document (Some user)
               (selection_of (get_user_data st) selected_subjects))
       then Some (PdfFile
                    (pdf_document (Some user)
                       (selection_of (get_user_data st) selected_subjects)))
       else None)
  ∧ (∃ d, export_qa fpdf_completes Markdown selected_subjects st = Some d
        ∧ payload d
          = MarkdownText
              (md_title (Some user)
               +:+ str_concat
                     (selection_of (get_user_data st) selected_subjects
                      ≫= λ item, md_subject item.1 :: (md_entry <$> item.2)))).
Proof.
  intros Hwf Hu Hne Hnd Hsel.
  assert (Hrun : ∀ export_format,
    export_qa fpdf_completes export_format selected_subjects st
    = match export_format with
      | CSV =>
          Some {| payload := CsvFrame (csv_rows (selection_of (get_user_data st)
                                                    selected_subjects));
                  file_name := "my_qna_export_" +:+ user +:+ ".csv";
                  mime := "text/csv" |}
      | JSON =>
          Some {| payload := JsonText (json_str_of
                                         (selection_of (get_user_data st)
                                                       selected_subjects));
                  file_name := "my_qna_export_" +:+ user +:+ ".json";
                  mime := "application/json" |}
      | PDF =>
          if fpdf_completes (generate_pdf
                               (selection_of (get_user_data st)
                                             selected_subjects)
                               (Some user)).1
          then Some {| payload := PdfFile (generate_pdf
                                             (selection_of (get_user_data st)
                                                           selected_subjects)
                                             (Some user)).1;
                       file_name := "my_qna_export_" +:+ user +:+ ".pdf";
                       mime := "application/pdf" |}
          else None
      | Markdown =>
          Some {| payload := MarkdownText
                               (markdown_of (selection_of (get_user_data st)
                                                          selected_subjects)
                                            (Some user));
                  file_name := "my_qna_export_" +:+ user +:+ ".md";
                  mime := "text/markdown" |}
      end).
  { intros export_format. unfold export_qa.
    destruct selected_subjects as [|s0 sel]; [done|].
    destruct (get_user_data st) as [|item0 user_data] eqn:Hud.
    { exfalso. eapply not_elem_of_nil. apply (Hsel s0). left. }
    cbn [truthy negb]. rewrite <- Hud in *.
    rewrite select_export_data_spec by done.
    cbn [mbind option_bind]. rewrite Hu. by destruct export_format. }
  split_and!.
  - unfold selection_of. apply list_fmap_ext. intros i s _. cbn beta.
    by rewrite get_user_data_lookup, Hu.
  - eexists. split; [exact (Hrun CSV)|]. cbn [payload].
    by rewrite csv_rows_spec.
  - eexists _, _. split_and!; [exact (Hrun JSON)|done|].
    assert (Hl : Json.loads (json_str_of (selection_of (get_user_data st)
                                                       selected_subjects))
                 = Some (py_of_store (selection_of (get_user_data st)
                                                   selected_subjects))).
    { apply Json.loads_dumps, py_of_store_jwf. by apply wf_selection_of. }
    rewrite Hl. cbn [mbind option_bind]. apply store_of_py_of_store.
  - rewrite (Hrun PDF). cbv beta iota. rewrite generate_pdf_spec.
    unfold pdf_document. clear Hrun. by destruct (fpdf_completes _).
  - eexists. split; [exact (Hrun Markdown)|]. cbn [payload].
    by rewrite markdown_of_spec.
Qed.

Lemma export_qa_every_entry_once_witness :
  (∃ d, export_qa fpdf_always CSV ["Numbers"; "Python"] demo_state = Some d
        ∧ payload d
          = CsvFrame
              [{| Subject := "Numbers"; Question := "Is 97 prime?";
                  Answer := "Yes."; Date := "2024-03-04 09:00:00" |};
               {| Subject := "Python"; Question := "What is a closure?";
                  Answer := "A function together with its environment.";
                  Date := "2024-03-01 10:00:00" |};
               {| Subject := "Python"; Question := "What is recursion?";
                  Answer := "A definition that refers to itself.";
                  Date := "2024-03-01 10:05:00" |};
               {| Subject := "Python"; Question := "What is a closure?";
                  Answer := "A function together with its environment.";
                  Date := "2024-03-02 18:30:00" |}])
  ∧ (∃ d json_str,
        export_qa fpdf_always JSON ["Numbers"; "Python"] demo_state = Some d
        ∧ payload d = JsonText json_str
        ∧ Json.loads json_str ≫= store_of_py
          = Some [("Numbers", [alice_prime]);
                  ("Python", [closure_qa; recursion_qa; closure_again])])
  ∧ payload <$> export_qa fpdf_always PDF ["Numbers"] demo_state
    = Some (PdfFile
              [set_auto_page_break true 15; add_page; set_font "Arial" "" 12;
               cell 200 10 "Q&A Export for alice" true "C"; ln 10;
               set_font "Arial" "B" 12; cell 200 10 "Numbers" true "";
               set_font "Arial" "" 11;
               multi_cell 0 10 "Q: Is 97 prime?"; multi_cell 0 10 "A: Yes.";
               cell 0 10 "Date: 2024-03-04 09:00:00" true ""; ln 5;
               output "qna_export_alice.pdf"])
  ∧ payload <$> export_qa (λ _, false) PDF ["Numbers"] demo_state = None.
Proof.
  assert (Hkeys : ∀ sel : list string, sel ⊆ ["Numbers"; "Python"] →
            ∀ s, s ∈ sel → s ∈ dkeys (get_user_data demo_state)).
  { intros sel Hsub s Hs%Hsub.
    change (dkeys (get_user_data demo_state)) with ["Python"; "Numbers"].
    apply elem_of_cons in Hs as [->|Hs]; [right; left|].
    apply list_elem_of_singleton in Hs as ->. left. }
  destruct (export_qa_every_entry_once fpdf_always demo_state "alice"
              ["Numbers"; "Python"] wf_demo_subjects eq_refl)
    as (_ & Hcsv & Hjson & _ & _).
  { discriminate. }
  { apply (bool_decide_unpack _). by vm_compute. }
  { by apply Hkeys. }
  destruct (export_qa_every_entry_once fpdf_always demo_state "alice"
              ["Numbers"] wf_demo_subjects eq_refl)
    as (_ & _ & _ & Hpdf & _).
  { discriminate. }
  { apply NoDup_singleton. }
  { apply Hkeys. intros s Hs. apply list_elem_of_singleton in Hs as ->. left. }
  destruct (export_qa_every_entry_once (λ _, false) demo_state "alice"
              ["Numbers"] wf_demo_subjects eq_refl)
    as (_ & _ & _ & Hno & _).
  { discriminate. }
  { apply NoDup_singleton. }
  { apply Hkeys. intros s Hs. apply list_elem_of_singleton in Hs as ->. left. }
  split_and!; [exact Hcsv|exact Hjson|exact Hpdf|exact Hno].
Defined.

End QA.

(** ** The pages of [main_app]: handlers around the store operations *)
Module Pages.
Import QA.

(** The "Save Q&A" button of [add_qa]: an empty field is reported and
    nothing is saved. *)
Definition save_qa_button (subject question answer now : string) (st : State)
    : State :=
  if negb (str_truthy subject) || negb (str_truthy question)
     || negb (str_truthy answer)
  then st
  else add_qa subject question answer now st.

(** [st.session_state.editing = {...}] of the "Edit Q{i}" button, for the
    entry [qa] at position [pos] (that is [i-1]) of the list shown. *)
Definition edit_button (selected_subject : string) (pos : nat) (qa : QAEntry)
    (st : State) : State :=
  {| subjects := subjects st; current_user := current_user st;
     authenticated := authenticated st;
     editing := Some {| ed_subject := selected_subject; ed_index := pos;
                        ed_question := question qa;
                        ed_answer := answer qa |};
     data_file := data_file st |}.

(** What can be pressed on the "View My Q&As" page in one run. *)
Inductive ViewAction :=
  | ClickEdit (selected_subject : string) (pos : nat)
  | ClickDelete (selected_subject : string) (pos : nat)
  | SubmitSaveChanges (new_question new_answer : string)
  | SubmitCancel.

(** [view_qa()] with one button pressed.  The page is left at once when the
    user has no entries; the Edit and Delete buttons exist for the entries
    of [user_data[selected_subject]] only, the edit form while
    [st.session_state.editing] is set. *)
Definition view_qa (action : ViewAction) (now : string) (st : State) : result :=
  let user_data := get_user_data st in
  if negb (truthy user_data) then Ok st
  else
    match action with
    | ClickEdit selected_subject pos =>
        match dget selected_subject user_data with
        | Some qa_list =>
            match qa_list !! pos with
            | Some qa => Ok (edit_button selected_subject pos qa st)
            | None => Ok st
            end
        | None => Ok st
        end
    | ClickDelete selected_subject pos =>
        match dget selected_subject user_data with
        | Some qa_list =>
            match qa_list !! pos with
            | Some qa => delete_button selected_subject qa st
            | None => Ok st
            end
        | None => Ok st
        end
    | SubmitSaveChanges new_question new_answer =>
        save_changes new_question new_answer now st
    | SubmitCancel =>
        match editing st with
        | Some _ => Ok (del_editing st)
        | None => Ok st
        end
    end.

(** *** Adding *)

(** The store after a save with all three fields filled. *)
Lemma save_qa_button_store (st : State) (subject question answer now : string) :
  subject ≠ "" → question ≠ "" → answer ≠ "" →
  dget subject (subjects (save_qa_button subject question answer now st))
  = Some (default [] (dget subject (subjects st))
          ++ [{| question := question; answer := answer;
                 timestamp := now; created_by := current_user st |}])
  ∧ (∀ s, s ≠ subject →
       dget s (subjects (save_qa_button subject question answer now st))
       = dget s (subjects st))
  ∧ dkeys (subjects (save_qa_button subject question answer now st))
    = (if dmem subject (subjects st) then dkeys (subjects st)
       else dkeys (subjects st) ++ [subject])
  ∧ data_file (save_qa_button subject question answer now st)
    = Some (subjects (save_qa_button subject question answer now st)).
Proof.
  intros Hs Hq Ha. unfold save_qa_button.
  destruct subject as [|c1 s1], question as [|c2 s2], answer as [|c3 s3];
    try done.
  cbn [str_truthy negb orb]. unfold add_qa, dmem.
  destruct (dget (String c1 s1) (subjects st)) as [l|] eqn:Hget.
  - rewrite Hget.
    cbn [subjects data_file save_data set_subjects default from_option id].
    split_and!; [apply dget_dset_eq| |apply dkeys_dset_present|done].
    + intros s Hne. by apply dget_dset_ne.
    + by eapply dget_Some_dkeys.
  - rewrite dget_dset_eq.
    cbn [subjects data_file save_data set_subjects default from_option id app].
    assert (Hk : String c1 s1 ∉ dkeys (subjects st)) by (by apply dget_None).
    split_and!; [apply dget_dset_eq| | |done].
    + intros s Hne. by rewrite !dget_dset_ne.
    + rewrite dkeys_dset_present.
      * rewrite dset_absent by done. unfold dkeys. by rewrite fmap_app.
      * eapply dget_Some_dkeys. apply dget_dset_eq.
Qed.

(** X1: With an empty field the Save button changes nothing; otherwise the new
    entry, created by the acting user at [now], goes to the end of the
    subject's list (a new subject goes to the end of the store), every other
    subject keeps its list, and the file is rewritten with the result. *)
Theorem save_qa_button_appends
    (st : State) (subject question answer now : string) :
  (subject = "" ∨ question = "" ∨ answer = "" →
   save_qa_button subject question answer now st = st)
  ∧ (subject ≠ "" → question ≠ "" → answer ≠ "" →
     dget subject (subjects (save_qa_button subject question answer now st))
     = Some (default [] (dget subject (subjects st))
             ++ [{| question := question; answer := answer;
                    timestamp := now; created_by := current_user st |}])
     ∧ (∀ s, s ≠ subject →
          dget s (subjects (save_qa_button subject question answer now st))
          = dget s (subjects st))
     ∧ dkeys (subjects (save_qa_button subject question answer now st))
       = (if dmem subject (subjects st) then dkeys (subjects st)
          else dkeys (subjects st) ++ [subject])
     ∧ data_file (save_qa_button subject question answer now st)
       = Some (subjects (save_qa_button subject question answer now st))).
Proof.
  split.
  - unfold save_qa_button. intros [->| [->| ->]]; cbn [str_truthy negb orb];
      rewrite ?orb_true_r; reflexivity.
  - apply save_qa_button_store.
Qed.

Lemma save_qa_button_appends_witness :
  save_qa_button "Python" "" "An answer." "2024-05-01 08:00:00" demo_state
  = demo_state
  ∧ dget "Logic" (subjects (save_qa_button "Logic" "What is modus ponens?"
                              "From A and A -> B infer B."
                              "2024-05-01 08:00:00" demo_state))
    = Some [{| question := "What is modus ponens?";
               answer := "From A and A -> B infer B.";
               timestamp := "2024-05-01 08:00:00";
               created_by := Some "alice" |}]
  ∧ dkeys (subjects (save_qa_button "Logic" "What is modus ponens?"
                       "From A and A -> B infer B."
                       "2024-05-01 08:00:00" demo_state))
    = ["Python"; "Math"; "Numbers"; "Logic"].
Proof.
  split.
  - apply (save_qa_button_appends demo_state "Python" ""). right. by left.
  - destruct (save_qa_button_appends demo_state "Logic" "What is modus ponens?"
                "From A and A -> B infer B." "2024-05-01 08:00:00")
      as [_ Happ].
    destruct Happ as (Hget & _ & Hkeys & _); [discriminate..|].
    split; [exact Hget|exact Hkeys].
Defined.
Lemma save_qa_button_wf subject question answer now st :
  wf (subjects st) →
  wf (subjects (save_qa_button subject question answer now st)).
Proof.
  intros Hwf. unfold save_qa_button.
  destruct (_ || _); [done|]. by apply add_qa_wf.
Qed.

(** X2: After a save the creator sees the entry at the end of the subject's
    list, and no other identity sees any change. *)
Theorem save_qa_button_visibility
    (st : State) (subject question answer now : string) :
  wf (subjects st) →
  subject ≠ "" → question ≠ "" → answer ≠ "" →
  default [] (dget subject
                (get_user_data (save_qa_button subject question answer now st)))
  = default [] (dget subject (get_user_data st))
    ++ [{| question := question; answer := answer; timestamp := now;
           created_by := current_user st |}]
  ∧ (∀ other, other ≠ current_user st →
       get_user_data
         (with_user other (save_qa_button subject question answer now st))
       = get_user_data (with_user other st)).
Proof.
  intros Hwf Hs Hq Ha.
  destruct (save_qa_button_store st subject question answer now Hs Hq Ha)
    as (Hget & _ & _ & _).
  pose proof (save_qa_button_wf subject question answer now st Hwf) as Hwf'.
  split.
  - rewrite !get_user_data_lookup by done. rewrite Hget.
    cbn [default from_option id]. rewrite filter_app.
    assert (Hcu : current_user (save_qa_button subject question answer now st)
                  = current_user st).
    { unfold save_qa_button. by destruct (_ || _). }
    rewrite Hcu. rewrite filter_cons_True by done. done.
  - intros other Hother.
    rewrite !get_user_data_omap by done.
    cbn [with_user subjects current_user].
    clear Hget Hwf'. unfold save_qa_button.
    destruct subject as [|c1 s1], question as [|c2 s2], answer as [|c3 s3];
      try done.
    cbn [str_truthy negb orb]. unfold add_qa, dmem.
    cbn [subjects save_data set_subjects].
    destruct (dget (String c1 s1) (subjects st)) as [l|] eqn:Hl.
    + rewrite Hl. apply (omap_visible_dset _ _ l); [done|done|].
      rewrite filter_app, filter_cons_False, filter_nil, app_nil_r; [done|].
      unfold owned_by. cbn. congruence.
    + rewrite dget_dset_eq.
      rewrite (omap_visible_dset _ _ [] _ (dset (String c1 s1) [] (subjects st)));
        [|by apply wf_dset|apply dget_dset_eq|].
      * rewrite dset_absent by (by apply dget_None).
        rewrite omap_app. cbn. by rewrite app_nil_r.
      * cbn [app]. rewrite filter_cons_False; [done|].
        unfold owned_by. cbn. congruence.
Qed.

Lemma save_qa_button_visibility_witness :
  default [] (dget "Math"
                (get_user_data (save_qa_button "Math" "Is 2 prime?" "Yes."
                                  "2024-05-01 08:00:00" demo_state)))
  = [{| question := "Is 2 prime?"; answer := "Yes.";
        timestamp := "2024-05-01 08:00:00"; created_by := Some "alice" |}]
  ∧ get_user_data
      (with_user (Some "bob")
         (save_qa_button "Math" "Is 2 prime?" "Yes."
            "2024-05-01 08:00:00" demo_state))
    = [("Python", [bob_closure]); ("Math", [bob_prime])].
Proof.
  destruct (save_qa_button_visibility demo_state "Math" "Is 2 prime?" "Yes."
              "2024-05-01 08:00:00" wf_demo_subjects)
    as [Hmine Hothers]; [discriminate..|].
  split.
  - rewrite Hmine. reflexivity.
  - rewrite (Hothers (Some "bob")); [reflexivity|discriminate].
Defined.

(** *** Deleting and editing what is shown *)

(** X4: A delete changes nothing of what any other identity sees. *)
Theorem delete_button_frame
    (st st' : State) (selected_subject : string) (qa : QAEntry) :
  wf (subjects st) →
  delete_button selected_subject qa st = Ok st' →
  ∀ other, other ≠ current_user st →
    get_user_data (with_user other st') = get_user_data (with_user other st).
Proof.
  intros Hwf Hrun other Hother.
  pose proof (delete_button_wf _ _ _ _ Hwf Hrun) as Hwf'.
  rewrite !get_user_data_omap by done. cbn [with_user subjects current_user].
  unfold delete_button in Hrun.
  destruct (dget selected_subject (subjects st)) as [l|] eqn:Hl; [|done].
  destruct (list_find _ l) as [[idx item]|] eqn:Hfind;
    injection Hrun as <-; [|done].
  cbn [subjects save_data set_subjects].
  apply (omap_visible_dset _ _ l); [done|done|].
  apply list_find_split in Hfind as (l1 & l2 & -> & <- & (_ & _ & Hc) & _).
  rewrite delete_middle, !filter_app. f_equal.
  rewrite filter_cons_False; [done|]. unfold owned_by. congruence.
Qed.

Lemma delete_button_frame_witness :
  ∃ st', delete_button "Python" closure_qa demo_state = Ok st'
         ∧ get_user_data (with_user (Some "bob") st')
           = [("Python", [bob_closure]); ("Math", [bob_prime])].
Proof.
  eexists. split; [reflexivity|].
  rewrite (delete_button_frame demo_state _ "Python" closure_qa
             wf_demo_subjects eq_refl (Some "bob")); [reflexivity|discriminate].
Defined.

(** The first match of a scan of the full list, seen in the list a filter
    keeps, when every match passes the filter. *)
Lemma list_find_filter {A} (P Q : A → Prop)
    `{∀ x, Decision (P x)} `{∀ x, Decision (Q x)} (l : list A) idx item :
  (∀ x, P x → Q x) →
  list_find P l = Some (idx, item) →
  ∃ j, list_find P (filter Q l) = Some (j, item)
       ∧ filter Q (delete idx l) = delete j (filter Q l)
       ∧ ∀ item', Q item' →
           filter Q (<[idx := item']> l) = <[j := item']> (filter Q l).
Proof.
  intros HPQ (l1 & l2 & -> & <- & HP & Hall)%list_find_split.
  exists (length (filter Q l1)).
  assert (Hf : filter Q (l1 ++ item :: l2)
               = filter Q l1 ++ item :: filter Q l2).
  { rewrite filter_app, filter_cons_True by auto. done. }
  rewrite Hf. split_and!.
  - apply list_find_split. exists (filter Q l1), (filter Q l2).
    split_and!; [done..|].
    apply Forall_forall. intros x [_ Hx]%list_elem_of_filter.
    rewrite Forall_forall in Hall. auto.
  - by rewrite !delete_middle, filter_app.
  - intros item' HQ.
    rewrite !insert_app_r_alt, !Nat.sub_diag by done. cbn [insert list_insert].
    rewrite filter_app, filter_cons_True by done. done.
Qed.

(** X5: Delete on an entry of the list shown never raises and always removes:
    the user's list for the subject loses its first entry with the clicked
    entry's question and answer, which stands at or before the clicked
    position, and nothing else. *)
Theorem view_qa_delete_shown
    (st : State) (selected_subject : string) (pos : nat) (now : string)
    (qa_list : list QAEntry) (qa : QAEntry) :
  wf (subjects st) →
  dget selected_subject (get_user_data st) = Some qa_list →
  qa_list !! pos = Some qa →
  ∃ st' j item,
    view_qa (ClickDelete selected_subject pos) now st = Ok st'
    ∧ list_find (same_qa (question qa) (answer qa) (current_user st)) qa_list
      = Some (j, item)
    ∧ j ≤ pos
    ∧ default [] (dget selected_subject (get_user_data st')) = delete j qa_list
    ∧ data_file st' = Some (subjects st').
Proof.
  intros Hwf Hud Hpos.
  pose proof (get_user_data_lookup st selected_subject Hwf) as Hlook.
  rewrite Hud in Hlook. cbn [default from_option id] in Hlook.
  destruct (dget selected_subject (subjects st)) as [l|] eqn:Hl;
    cbn [default from_option id] in Hlook;
    [|subst qa_list; cbn in Hpos; done].
  assert (Hin : qa ∈ qa_list) by (by eapply list_elem_of_lookup_2).
  assert (Hown : owned_by (current_user st) qa).
  { rewrite Hlook in Hin. by apply list_elem_of_filter in Hin as [? _]. }
  assert (Hsame : same_qa (question qa) (answer qa) (current_user st) qa)
    by done.
  assert (Hinl : qa ∈ l).
  { rewrite Hlook in Hin. by apply list_elem_of_filter in Hin as [_ ?]. }
  destruct (list_find_elem_of _ _ _ Hinl Hsame) as [[idx item] Hfind].
  destruct (list_find_filter (same_qa (question qa) (answer qa)
                                      (current_user st))
              (owned_by (current_user st)) l idx item)
    as (j & Hj & Hdel & _); [by intros x (_ & _ & ?)|done|].
  rewrite <- Hlook in Hj, Hdel.
  pose (subjects' := dset selected_subject (delete idx l) (subjects st)).
  exists (save_data subjects' (set_subjects subjects' st)), j, item.
  subst subjects'. split_and!.
  - unfold view_qa. rewrite Hud.
    destruct (get_user_data st); [done|]. cbn [truthy negb].
    rewrite Hpos. unfold delete_button. by rewrite Hl, Hfind.
  - done.
  - apply list_find_Some in Hj as (_ & _ & Hleast).
    destruct (decide (j ≤ pos)) as [|Hgt]; [done|].
    exfalso. apply (Hleast pos qa); [done|lia|done].
  - rewrite get_user_data_lookup by (by apply wf_dset).
    cbn [subjects current_user save_data set_subjects].
    by rewrite dget_dset_eq.
  - done.
Qed.

(** Alice deletes the third entry shown, the later copy of her closure
    entry: the first copy goes. *)
Lemma view_qa_delete_shown_witness :
  ∃ st', view_qa (ClickDelete "Python" 2) "2024-05-01 08:00:00" demo_state
         = Ok st'
         ∧ default [] (dget "Python" (get_user_data st'))
           = [recursion_qa; closure_again].
Proof.
  destruct (view_qa_delete_shown demo_state "Python" 2 "2024-05-01 08:00:00"
              [closure_qa; recursion_qa; closure_again] closure_again
              wf_demo_subjects eq_refl eq_refl)
    as (st' & j & item & Hrun & Hfind & _ & Hlist & _).
  exists st'. split; [exact Hrun|].
  rewrite Hlist. injection Hfind as <- _. reflexivity.
Defined.

(** X6: Edit on an entry of the list shown, then Save Changes, never raises
    and never misses: the user's first entry with the clicked entry's
    question and answer, at or before the clicked position, gets the new
    question, answer and timestamp where it stands; the edit buffer is
    dropped and the file rewritten. *)
Theorem view_qa_edit_shown
    (st : State) (selected_subject : string) (pos : nat)
    (now0 now new_question new_answer : string)
    (qa_list : list QAEntry) (qa : QAEntry) :
  wf (subjects st) →
  dget selected_subject (get_user_data st) = Some qa_list →
  qa_list !! pos = Some qa →
  ∃ st1 st2 j item,
    view_qa (ClickEdit selected_subject pos) now0 st = Ok st1
    ∧ view_qa (SubmitSaveChanges new_question new_answer) now st1 = Ok st2
    ∧ list_find (same_qa (question qa) (answer qa) (current_user st)) qa_list
      = Some (j, item)
    ∧ j ≤ pos
    ∧ dget selected_subject (get_user_data st2)
      = Some (<[j := {| question := new_question; answer := new_answer;
                        timestamp := now;
                        created_by := current_user st |}]> qa_list)
    ∧ editing st2 = None
    ∧ data_file st2 = Some (subjects st2).
Proof.
  intros Hwf Hud Hpos.
  pose proof (get_user_data_lookup st selected_subject Hwf) as Hlook.
  rewrite Hud in Hlook. cbn [default from_option id] in Hlook.
  destruct (dget selected_subject (subjects st)) as [l|] eqn:Hl;
    cbn [default from_option id] in Hlook;
    [|subst qa_list; cbn in Hpos; done].
  assert (Hin : qa ∈ qa_list) by (by eapply list_elem_of_lookup_2).
  rewrite Hlook in Hin. apply list_elem_of_filter in Hin as [Hown Hinl].
  assert (Hsame : same_qa (question qa) (answer qa) (current_user st) qa)
    by done.
  destruct (list_find_elem_of _ _ _ Hinl Hsame) as [[idx item] Hfind].
  destruct (list_find_filter (same_qa (question qa) (answer qa)
                                      (current_user st))
              (owned_by (current_user st)) l idx item)
    as (j & Hj & _ & Hins); [by intros x (_ & _ & ?)|done|].
  rewrite <- Hlook in Hj.
  pose proof Hfind as (_ & (_ & _ & Hcreator) & _)%list_find_Some.
  pose (item' := edited new_question new_answer now item).
  pose (subjects' := dset selected_subject (<[idx := item']> l) (subjects st)).
  set (st1 := edit_button selected_subject pos qa st).
  assert (Hud1 : get_user_data st1 = get_user_data st) by reflexivity.
  exists st1,
         (del_editing (save_data subjects' (set_subjects subjects' st1))),
         j, item.
  split_and!.
  - unfold view_qa. rewrite Hud.
    destruct (get_user_data st); [done|]. cbn [truthy negb]. by rewrite Hpos.
  - unfold view_qa. rewrite Hud1.
    destruct (get_user_data st) eqn:E; [done|]. cbn [truthy negb].
    unfold save_changes. cbn [editing st1 edit_button ed_subject ed_question
                              ed_answer subjects current_user].
    by rewrite Hl, Hfind.
  - done.
  - apply list_find_Some in Hj as (_ & _ & Hleast).
    destruct (decide (j ≤ pos)) as [|Hgt]; [done|].
    exfalso. apply (Hleast pos qa); [done|lia|done].
  - rewrite get_user_data_omap by (by apply wf_dset).
    rewrite dget_omap_visible by (by apply wf_dset).
    cbn [subjects current_user del_editing save_data set_subjects st1
         edit_button].
    unfold subjects'. rewrite dget_dset_eq. cbn [mbind option_bind].
    rewrite (Hins item') by (unfold owned_by; done).
    rewrite <- Hlook. unfold item', edited. rewrite Hcreator.
    destruct (<[j:=_]> qa_list) as [|x xs] eqn:E; [|done].
    apply (f_equal length) in E. rewrite length_insert in E.
    apply lookup_lt_Some in Hpos. cbn in E. lia.
  - done.
  - done.
Qed.

Lemma view_qa_edit_shown_witness :
  ∃ st1 st2,
    view_qa (ClickEdit "Python" 2) "2024-05-01 08:00:00" demo_state = Ok st1
    ∧ view_qa (SubmitSaveChanges "What is a closure?" "See PEP 227.")
              "2024-05-01 08:01:00" st1 = Ok st2
    ∧ dget "Python" (get_user_data st2)
      = Some [{| question := "What is a closure?"; answer := "See PEP 227.";
                 timestamp := "2024-05-01 08:01:00";
                 created_by := Some "alice" |};
              recursion_qa; closure_again].
Proof.
  destruct (view_qa_edit_shown demo_state "Python" 2 "2024-05-01 08:00:00"
              "2024-05-01 08:01:00" "What is a closure?" "See PEP 227."
              [closure_qa; recursion_qa; closure_again] closure_again
              wf_demo_subjects eq_refl eq_refl)
    as (st1 & st2 & j & item & Hrun1 & Hrun2 & Hfind & _ & Hlist & _).
  exists st1, st2. split_and!; [exact Hrun1|exact Hrun2|].
  rewrite Hlist. injection Hfind as <- _. reflexivity.
Defined.

(** X3: Saving an entry and deleting it again gives the subject its old list
    back, provided the user had no entry with the same question and answer
    there before (otherwise the older one is the one deleted); a subject
    created by the save stays, with the empty list. *)
Theorem save_then_delete_restores
    (st : State) (subject question answer now : string) :
  subject ≠ "" → question ≠ "" → answer ≠ "" →
  Forall (λ x, ¬ same_qa question answer (current_user st) x)
         (default [] (dget subject (subjects st))) →
  ∃ st',
    delete_button subject
      {| question := question; answer := answer; timestamp := now;
         created_by := current_user st |}
      (save_qa_button subject question answer now st) = Ok st'
    ∧ dget subject (subjects st')
      = Some (default [] (dget subject (subjects st)))
    ∧ (∀ s, s ≠ subject → dget s (subjects st') = dget s (subjects st))
    ∧ data_file st' = Some (subjects st').
Proof.
  intros Hs Hq Ha Hfresh.
  destruct (save_qa_button_store st subject question answer now Hs Hq Ha)
    as (Hget & Hothers & _ & _).
  assert (Hcu : current_user (save_qa_button subject question answer now st)
                = current_user st).
  { unfold save_qa_button. by destruct (_ || _). }
  set (l := default [] (dget subject (subjects st))) in *.
  assert (Hfind : list_find (same_qa question answer (current_user st))
                    (l ++ [{| question := question; answer := answer;
                              timestamp := now;
                              created_by := current_user st |}])
                  = Some (length l,
                          {| question := question; answer := answer;
                             timestamp := now;
                             created_by := current_user st |})).
  { apply list_find_split. exists l, []. by split_and!. }
  unfold delete_button. rewrite Hget. cbn [QA.question QA.answer].
  rewrite Hcu. eexists. rewrite Hfind. split; [reflexivity|].
  cbn [subjects data_file save_data set_subjects]. split_and!.
  - rewrite dget_dset_eq. f_equal.
    rewrite <- (app_nil_r l) at 3. apply delete_middle.
  - intros s Hne. rewrite dget_dset_ne by done. by apply Hothers.
  - done.
Qed.

Lemma save_then_delete_restores_witness :
  ∃ st',
    delete_button "Math"
      {| question := "Is 2 prime?"; answer := "Yes.";
         timestamp := "2024-05-01 08:00:00"; created_by := Some "alice" |}
      (save_qa_button "Math" "Is 2 prime?" "Yes." "2024-05-01 08:00:00"
                      demo_state) = Ok st'
    ∧ dget "Math" (subjects st') = Some [bob_prime].
Proof.
  destruct (save_then_delete_restores demo_state "Math" "Is 2 prime?" "Yes."
              "2024-05-01 08:00:00") as (st' & Hrun & Hget & _);
    [discriminate..| |].
  - repeat constructor. intros (Hq & _). discriminate Hq.
  - exists st'. split; [exact Hrun|exact Hget].
Defined.

(** *** What the pages list, find and export *)

(** X7: [get_user_data] never yields a subject with an empty list, and its
    subjects are subjects of the store, each once, in the store's order. *)
Theorem get_user_data_shape (st : State) :
  wf (subjects st) →
  wf (get_user_data st)
  ∧ dkeys (get_user_data st) `sublist_of` dkeys (subjects st)
  ∧ Forall (λ item, item.2 ≠ []) (get_user_data st).
Proof.
  intros Hwf. split; [by apply wf_get_user_data|].
  rewrite get_user_data_omap by done. clear Hwf.
  generalize (current_user st) as user. intros user.
  induction (subjects st) as [|[s l] d [IHk IHl]]; [by split; constructor|].
  cbn [omap list_omap].
  destruct (visible_item user (s, l)) as [[s' l']|] eqn:E.
  - unfold visible_item in E. cbn [fst snd] in E.
    destruct (filter (owned_by user) l) as [|x xs] eqn:F; [done|].
    injection E as <- <-. split.
    + unfold dkeys in *. cbn [fmap list_fmap fst]. by apply sublist_skip.
    + apply Forall_cons. split; [done|exact IHl].
  - split; [|exact IHl]. unfold dkeys in *. cbn [fmap list_fmap fst].
    by apply sublist_cons.
Qed.

Lemma get_user_data_shape_witness :
  dkeys (get_user_data demo_state) `sublist_of` ["Python"; "Math"; "Numbers"]
  ∧ Forall (λ item, item.2 ≠ []) (get_user_data demo_state).
Proof.
  destruct (get_user_data_shape demo_state wf_demo_subjects)
    as (_ & Hkeys & Hlists).
  split; [exact Hkeys|exact Hlists].
Defined.

Lemma select_all (user_data : store) :
  wf user_data →
  select_export_data user_data (dkeys user_data) = Some user_data.
Proof.
  intros Hwf. rewrite select_export_data_spec; [|done|done].
  f_equal. unfold selection_of, dkeys. rewrite <- list_fmap_compose.
  rewrite <- (list_fmap_id user_data) at 2.
  apply list_fmap_ext. intros i [s l] Hi. cbn.
  rewrite (elem_dget s l); [done|done|]. by eapply list_elem_of_lookup_2.
Qed.

(** X8: With all the offered subjects selected, the CSV export has one row
    for each entry the user sees, holding its subject, question, answer and
    timestamp, in the order of [get_user_data]; the results of a search are
    rows of that export, in the same order.  A user who sees no entry gets
    no export and no search result. *)
Theorem search_qa_within_csv_export
    (fpdf_completes : list PdfCall → bool) (lower : string → string)
    (st : State) (search_term : string) :
  wf (subjects st) →
  search_term ≠ "" →
  ∃ results rows,
    search_qa lower search_term st = Some results
    ∧ rows = (λ e : string * QAEntry,
                {| Subject := e.1; Question := question e.2;
                   Answer := answer e.2; Date := timestamp e.2 |})
               <$> entries_of (get_user_data st)
    ∧ results `sublist_of` rows
    ∧ payload <$> export_qa fpdf_completes CSV (dkeys (get_user_data st)) st
      = (if truthy (get_user_data st) then Some (CsvFrame rows) else None).
Proof.
  intros Hwf Hterm. eexists _, _. split_and!.
  - unfold search_qa. destruct search_term; [done|]. reflexivity.
  - reflexivity.
  - rewrite search_outer_loop, app_nil_l. unfold entries_of.
    induction (get_user_data st) as [|[s l] d IH]; [constructor|].
    rewrite !bind_cons, fmap_app. apply sublist_app; [|exact IH].
    cbn [fst snd]. rewrite <- list_fmap_compose.
    apply fmap_sublist, sublist_filter.
  - unfold export_qa.
    pose proof (select_all (get_user_data st) (wf_get_user_data st Hwf)) as Hall.
    rewrite <- csv_rows_spec.
    destruct (get_user_data st) as [|item user_data]; [done|].
    change (truthy (dkeys (item :: user_data))) with true.
    cbn [truthy negb]. by rewrite Hall.
Qed.

Lemma search_qa_within_csv_export_witness :
  ∃ results rows,
    search_qa lower_ascii "prime" demo_state = Some results
    ∧ rows = [{| Subject := "Python"; Question := "What is a closure?";
                 Answer := "A function together with its environment.";
                 Date := "2024-03-01 10:00:00" |};
              {| Subject := "Python"; Question := "What is recursion?";
                 Answer := "A definition that refers to itself.";
                 Date := "2024-03-01 10:05:00" |};
              {| Subject := "Python"; Question := "What is a closure?";
                 Answer := "A function together with its environment.";
                 Date := "2024-03-02 18:30:00" |};
              {| Subject := "Numbers"; Question := "Is 97 prime?";
                 Answer := "Yes."; Date := "2024-03-04 09:00:00" |}]
    ∧ results `sublist_of` rows
    ∧ payload <$> export_qa fpdf_always CSV ["Python"; "Numbers"] demo_state
      = Some (CsvFrame rows).
Proof.
  apply (search_qa_within_csv_export fpdf_always lower_ascii demo_state "prime"
           wf_demo_subjects).
  discriminate.
Defined.

Lemma select_export_data_is_Some (user_data : store) (sel : list string) :
  is_Some (select_export_data user_data sel)
  ↔ ∀ s, s ∈ sel → s ∈ dkeys user_data.
Proof.
  unfold select_export_data.
  assert (Hnone : ∀ sel : list string,
    foldl (λ acc subj,
             export_data ← acc;
             qa_list ← dget subj user_data;
             Some (dset subj qa_list export_data)) None sel = None).
  { intros sel'. by induction sel'. }
  generalize (@nil (string * list QAEntry)) as acc.
  induction sel as [|s sel IH]; intros acc.
  - split; [intros _ s Hs; by apply elem_of_nil in Hs|by eexists].
  - cbn [foldl]. cbn [mbind option_bind].
    destruct (dget s user_data) as [l|] eqn:Hl; cbn [mbind option_bind].
    + rewrite IH. split.
      * intros Hsel s' [->|?]%elem_of_cons; [by eapply dget_Some_dkeys|auto].
      * intros Hsel s' Hs'. apply Hsel. by right.
    + rewrite Hnone. split; [by intros [? ?]|].
      intros Hsel. apply dget_None in Hl. destruct Hl. apply Hsel. left.
Qed.

(** X9: A download is offered exactly when at least one subject is selected,
    every selected subject is one of the user's and, for the PDF format,
    [FPDF] carries out the calls of [generate_pdf] without raising; the
    other three formats do not depend on [FPDF]. *)
Theorem export_qa_offered
    (fpdf_completes : list PdfCall → bool)
    (export_format : ExportFormat) (selected_subjects : list string)
    (st : State) :
  is_Some (export_qa fpdf_completes export_format selected_subjects st)
  ↔ selected_subjects ≠ []
    ∧ (∀ s, s ∈ selected_subjects → s ∈ dkeys (get_user_data st))
    ∧ (export_format = PDF →
       ∀ export_data,
         select_export_data (get_user_data st) selected_subjects
         = Some export_data →
         fpdf_completes (generate_pdf export_data (current_user st)).1 = true).
Proof.
  unfold export_qa.
  destruct (get_user_data st) as [|item user_data] eqn:Hud; cbn [truthy negb].
  - split; [by intros [? ?]|]. intros (Hne & Hsel & _).
    destruct selected_subjects as [|s sel]; [done|].
    specialize (Hsel s). exfalso. eapply not_elem_of_nil. apply Hsel. left.
  - destruct selected_subjects as [|s sel]; cbn [truthy negb].
    { split; [by intros [? ?]|by intros [? _]]. }
    rewrite <- select_export_data_is_Some.
    destruct (select_export_data (item :: user_data) (s :: sel)) as [d|];
      cbn [mbind option_bind].
    + destruct export_format.
      * split; [|by eexists]. intros _. split_and!; [done|by eexists|done].
      * split; [|by eexists]. intros _. split_and!; [done|by eexists|done].
      * destruct (fpdf_completes (generate_pdf d (current_user st)).1) eqn:Hf.
        -- split; [|by eexists]. intros _.
           split_and!; [done|by eexists|]. by intros _ ? [= <-].
        -- split; [by intros [? ?]|]. intros (_ & _ & Hpdf).
           specialize (Hpdf eq_refl d eq_refl). congruence.
      * split; [|by eexists]. intros _. split_and!; [done|by eexists|done].
    + split; [by intros [? ?]|by intros (_ & [? ?] & _)].
Qed.

Lemma export_qa_offered_witness :
  is_Some (export_qa (λ _, false) Markdown ["Numbers"] demo_state)
  ∧ is_Some (export_qa fpdf_always PDF ["Numbers"] demo_state)
  ∧ ¬ is_Some (export_qa (λ _, false) PDF ["Numbers"] demo_state)
  ∧ ¬ is_Some (export_qa fpdf_always Markdown ["Math"] demo_state)
  ∧ ¬ is_Some (export_qa fpdf_always Markdown [] demo_state).
Proof.
  assert (Hsel : ∀ s : string,
            s ∈ ["Numbers"] → s ∈ dkeys (get_user_data demo_state)).
  { intros s ->%list_elem_of_singleton.
    apply (bool_decide_unpack _). by vm_compute. }
  split_and!.
  - apply (export_qa_offered (λ _, false) Markdown ["Numbers"] demo_state).
    split_and!; [discriminate|exact Hsel|discriminate].
  - apply (export_qa_offered fpdf_always PDF ["Numbers"] demo_state).
    split_and!; [discriminate|exact Hsel|done].
  - intros (_ & _ & Hpdf)%(export_qa_offered (λ _, false) PDF ["Numbers"]
                             demo_state).
    by specialize (Hpdf eq_refl _ eq_refl).
  - intros (_ & Hin & _)%(export_qa_offered fpdf_always Markdown ["Math"]
                            demo_state).
    specialize (Hin "Math" ltac:(left)).
    revert Hin. apply (bool_decide_unpack _). by vm_compute.
  - by intros [Hne _]%(export_qa_offered fpdf_always Markdown [] demo_state).
Defined.

(** X10: [generate_pdf] writes the file once, as its last call and under the
    name it returns; before that come the five title calls, three calls
    per subject and four per entry. *)
Theorem generate_pdf_calls (data : store) (username : option string) :
  ∃ body,
    (generate_pdf data username).1
    = body ++ [output (generate_pdf data username).2]
    ∧ Forall (λ c, ∀ name, c ≠ output name) body
    ∧ length body = 5 + 3 * length data + 4 * length (entries_of data).
Proof.
  exists (pdf_title username
          ++ (data ≫= λ item, pdf_subject item.1 ++ (item.2 ≫= pdf_entry))).
  split_and!.
  - rewrite generate_pdf_spec. by rewrite app_assoc.
  - apply Forall_app. split; [by repeat constructor|].
    apply Forall_bind, Forall_forall. intros [s l] _.
    apply Forall_app. split; [by repeat constructor|].
    apply Forall_bind, Forall_forall. intros qa _. by repeat constructor.
  - rewrite length_app. cbn [pdf_title length]. unfold entries_of.
    induction data as [|[s l] d IH]; [done|].
    rewrite !bind_cons, !length_app, length_fmap. cbn [fst snd length].
    assert (Hl : length (l ≫= pdf_entry) = 4 * length l).
    { clear. induction l as [|qa l IH]; [done|].
      rewrite bind_cons, length_app. cbn [length pdf_entry]. lia. }
    change (length (pdf_subject s)) with 3. lia.
Qed.

End Pages.

(** ** The forms of [authentication_section] *)
Module Auth.
Import Users.

(** The message the register form ends with. *)
Inductive RegisterMessage :=
  | PasswordsDontMatch
  | PasswordTooShort
  | RegistrationSuccessful
  | UsernameExists.

Section forms_code.
Variable hash_password : string → string.

(** The "Register" submit button: the two checks on the password, then
    [register_user] with the e-mail field as typed. *)
Definition register_form
    (new_username new_password confirm_password email now : string)
    (f : user_file) : RegisterMessage * user_file :=
  if negb (bool_decide (new_password = confirm_password))
  then (PasswordsDontMatch, f)
  else if bool_decide (String.length new_password < 6)
  then (PasswordTooShort, f)
  else
    let r := register_user hash_password new_username new_password
                           (Some email) now f in
    if r.1 then (RegistrationSuccessful, r.2) else (UsernameExists, r.2).
End forms_code.

Section forms_facts.
Variable hash_password : string → string.

(** X11: Once a username is registered with a password, that password verifies,
    every password with another hash is refused, and the verification of
    every other username is as before. *)
Theorem register_then_verify
    (f : user_file) (username password : string) (email : option string)
    (now : string) :
  load_users f !! username = None →
  verify_user hash_password username password
    (register_user hash_password username password email now f).2 = true
  ∧ (∀ password',
       hash_password password' ≠ hash_password password →
       verify_user hash_password username password'
         (register_user hash_password username password email now f).2
       = false)
  ∧ (∀ username' password',
       username' ≠ username →
       verify_user hash_password username' password'
         (register_user hash_password username password email now f).2
       = verify_user hash_password username' password' f).
Proof.
  intros Hfree. unfold register_user, verify_user.
  rewrite decide_False by (rewrite Hfree; by intros [? ?]).
  cbn [snd load_users save_users]. split_and!.
  - rewrite lookup_insert_eq. cbn. by apply bool_decide_eq_true.
  - intros password' Hne. rewrite lookup_insert_eq. cbn.
    apply bool_decide_eq_false. congruence.
  - intros username' password' Hne. by rewrite lookup_insert_ne.
Qed.

(** X12: The register form succeeds exactly when the two passwords agree, the
    password has at least six characters and the username is free; in every
    other case the user file is left as it was, and in no case is the record
    of an existing user changed or removed. *)
Theorem register_form_outcome
    (new_username new_password confirm_password email now : string)
    (f : user_file) :
  ((register_form hash_password new_username new_password confirm_password
                  email now f).1 = RegistrationSuccessful
   ↔ new_password = confirm_password
     ∧ 6 ≤ String.length new_password
     ∧ load_users f !! new_username = None)
  ∧ ((register_form hash_password new_username new_password confirm_password
                    email now f).1 ≠ RegistrationSuccessful →
     (register_form hash_password new_username new_password confirm_password
                    email now f).2 = f)
  ∧ (∀ username r,
       load_users f !! username = Some r →
       load_users
         (register_form hash_password new_username new_password
                        confirm_password email now f).2 !! username
       = Some r).
Proof.
  unfold register_form, register_user.
  destruct (decide (new_password = confirm_password)) as [Heq|Hne].
  2:{ rewrite bool_decide_eq_false_2 by done. cbn [negb fst snd].
      split_and!; [split; [done|by intros [? _]]|done|done]. }
  rewrite bool_decide_eq_true_2 by done. cbn [negb].
  destruct (decide (String.length new_password < 6)) as [Hshort|Hlong].
  { rewrite bool_decide_eq_true_2 by done. cbn [fst snd].
    split_and!; [split; [done|intros (_ & ? & _); lia]|done|done]. }
  rewrite bool_decide_eq_false_2 by done.
  destruct (load_users f !! new_username) as [r0|] eqn:Hu.
  - rewrite decide_True by (by eexists). cbn [fst snd].
    split_and!; [split; [done|by intros (_ & _ & ?)]|done|done].
  - rewrite decide_False by (by intros [? ?]). cbn [fst snd].
    split_and!; [split; [intros _; split_and!; [done|lia|done]|done]|done|].
    intros username r Hr. cbn [load_users save_users].
    rewrite lookup_insert_ne; [done|]. intros <-. congruence.
Qed.
End forms_facts.

Lemma register_then_verify_witness :
  verify_user demo_hash "bob" "builder"
    (register_user demo_hash "bob" "builder" None "2024-02-02 08:00:00"
                   demo_users).2 = true
  ∧ verify_user demo_hash "bob" "wonderland"
      (register_user demo_hash "bob" "builder" None "2024-02-02 08:00:00"
                     demo_users).2 = false
  ∧ verify_user demo_hash "alice" "wonderland"
      (register_user demo_hash "bob" "builder" None "2024-02-02 08:00:00"
                     demo_users).2 = true.
Proof.
  destruct (register_then_verify demo_hash demo_users "bob" "builder" None
              "2024-02-02 08:00:00") as (Hok & Hbad & Hothers).
  { vm_compute. reflexivity. }
  split_and!.
  - exact Hok.
  - apply Hbad. vm_compute. discriminate.
  - rewrite (Hothers "alice" "wonderland"); [|discriminate].
    vm_compute. reflexivity.
Defined.

Lemma register_form_outcome_witness :
  (register_form demo_hash "bob" "builder" "builder" "" "2024-02-02 08:00:00"
                 demo_users).1 = RegistrationSuccessful
  ∧ (register_form demo_hash "bob" "build" "build" "" "2024-02-02 08:00:00"
                   demo_users).2 = demo_users
  ∧ is_Some (load_users
               (register_form demo_hash "alice" "rabbit-hole" "rabbit-hole" ""
                              "2024-02-02 08:00:00" demo_users).2 !! "alice").
Proof.
  split_and!.
  - apply (register_form_outcome demo_hash "bob" "builder" "builder" ""
             "2024-02-02 08:00:00" demo_users).
    split_and!; [reflexivity|cbn; lia|vm_compute; reflexivity].
  - apply (register_form_outcome demo_hash "bob" "build" "build" ""
             "2024-02-02 08:00:00" demo_users).
    vm_compute. discriminate.
  - eexists.
    apply (register_form_outcome demo_hash "alice" "rabbit-hole" "rabbit-hole"
             "" "2024-02-02 08:00:00" demo_users).
    vm_compute. reflexivity.
Defined.

End Auth.

(** ** The script as Streamlit runs it

    Every interaction runs the whole script once: the top-level statements,
    then [main()], with at most one button pressed.  [st.rerun()] ends the
    run and starts the next one, in which nothing is pressed. *)
Module App.
Import Users QA Pages Auth.

(** The session state together with the user file. *)
Record World := {
  session : State;
  users_file : user_file
}.

(** The button pressed in a run, with the values of its form.  A button
    that is not on the page shown cannot be pressed: a run with such an
    event only executes the top-level statements.  Searching and exporting
    change no state; they are [search_qa] and [export_qa] above. *)
Inductive Event :=
  | NoClick
  | LoginSubmit (username password : string)
  | RegisterSubmit (new_username new_password confirm_password email : string)
  | LogoutClick
  | SaveQAClick (subject question answer : string)
  | ViewClick (action : ViewAction).

(** A new session: the three [if ... not in st.session_state] blocks. *)
Definition init (data : option store) (users : user_file) : World :=
  {| session := {| subjects := []; current_user := None;
                   authenticated := false; editing := None;
                   data_file := data |};
     users_file := users |}.

(** The top-level statements of a run: [st.session_state.subjects =
    load_data()], then both files are created if they do not exist. *)
Definition startup (w : World) : World :=
  let st := set_subjects (load_data (session w)) (session w) in
  {| session := {| subjects := subjects st; current_user := current_user st;
                   authenticated := authenticated st; editing := editing st;
                   data_file := match data_file st with
                                | Some data => Some data
                                | None => Some []
                                end |};
     users_file := match users_file w with
                   | Some users => Some users
                   | None => Some ∅
                   end |}.

Definition with_session (st : State) (w : World) : World :=
  {| session := st; users_file := users_file w |}.

(** The two assignments of the Logout button. *)
Definition logout (st : State) : State :=
  {| subjects := subjects st; current_user := None; authenticated := false;
     editing := editing st; data_file := data_file st |}.

Section app_code.
Variable hash_password : string → string.

(** The "Login" submit button. *)
Definition login_form (username password : string) (w : World) : World :=
  if verify_user hash_password username password (users_file w)
  then with_session
         {| subjects := subjects (session w); current_user := Some username;
            authenticated := true; editing := editing (session w);
            data_file := data_file (session w) |} w
  else w.

Definition authentication_section (ev : Event) (now : string) (w : World)
    : World :=
  match ev with
  | LoginSubmit username password => login_form username password w
  | RegisterSubmit new_username new_password confirm_password email =>
      {| session := session w;
         users_file := (register_form hash_password new_username new_password
                                      confirm_password email now
                                      (users_file w)).2 |}
  | _ => w
  end.

(** [main_app()]: the Logout button, then the page chosen in the sidebar.
    A [KeyError] ends the run with the state as it is. *)
Definition main_app (ev : Event) (now : string) (w : World) : World :=
  match ev with
  | LogoutClick => with_session (logout (session w)) w
  | SaveQAClick subject question answer =>
      with_session (save_qa_button subject question answer now (session w)) w
  | ViewClick action =>
      match view_qa action now (session w) with
      | Ok st' => with_session st' w
      | KeyError _ => w
      end
  | _ => w
  end.

Definition main (ev : Event) (now : string) (w : World) : World :=
  if negb (authenticated (session w)) then authentication_section ev now w
  else main_app ev now w.

(** One run of the script, at time [now]. *)
Definition run (ev : Event * string) (w : World) : World :=
  main ev.1 ev.2 (startup w).

Definition runs (evs : list (Event * string)) (w : World) : World :=
  foldl (λ w ev, run ev w) w evs.
End app_code.

(** What the runs keep true. *)
Definition registered (w : World) (user : option string) : Prop :=
  ∃ name, user = Some name ∧ is_Some (load_users (users_file w) !! name).

Definition identity_ok (w : World) : Prop :=
  if authenticated (session w) then registered w (current_user (session w))
  else current_user (session w) = None.

Definition creators_ok (w : World) : Prop :=
  ∀ s l qa, (s, l) ∈ load_data (session w) → qa ∈ l →
            registered w (created_by qa).

Definition editing_ok (w : World) : Prop :=
  ∀ ed, editing (session w) = Some ed →
        ed_subject ed ∈ dkeys (load_data (session w)).

(** What a handler of the main pages may do to the session: it keeps the
    identity, keeps every subject, writes the file whenever it changes the
    store, adds entries only under the acting user's name, and points the
    edit buffer only at a subject of the store. *)
Definition page_step (st st' : State) : Prop :=
  authenticated st' = authenticated st
  ∧ current_user st' = current_user st
  ∧ (data_file st = Some (subjects st) → data_file st' = Some (subjects st'))
  ∧ (∀ k, k ∈ dkeys (subjects st) → k ∈ dkeys (subjects st'))
  ∧ (∀ s l qa, (s, l) ∈ subjects st' → qa ∈ l →
       created_by qa = current_user st
       ∨ ∃ l0 qa0, (s, l0) ∈ subjects st ∧ qa0 ∈ l0
                   ∧ created_by qa0 = created_by qa)
  ∧ (∀ ed, editing st' = Some ed →
       editing st = Some ed ∨ ed_subject ed ∈ dkeys (subjects st)).

(** *** Facts about the store used below *)

Lemma elem_of_dset {V} k (v : V) (d : dict V) k' v' :
  (k', v') ∈ dset k v d → (k', v') = (k, v) ∨ (k', v') ∈ d.
Proof.
  induction d as [|[k0 v0] d IH]; cbn [dset].
  - intros ->%list_elem_of_singleton. by left.
  - destruct (decide (k = k0)) as [->|Hne].
    + intros [->|Hin]%elem_of_cons; [by left|]. right. by right.
    + intros [->|Hin]%elem_of_cons; [right; left|].
      destruct (IH Hin) as [?|?]; [by left|]. right. by right.
Qed.

Lemma dkeys_dset_mono {V} k (v : V) (d : dict V) k' :
  k' ∈ dkeys d → k' ∈ dkeys (dset k v d).
Proof.
  unfold dkeys. induction d as [|[k0 v0] d IH]; cbn [dset fmap list_fmap fst].
  - intros H. by apply elem_of_nil in H.
  - destruct (decide (k = k0)) as [->|Hne]; cbn [fmap list_fmap fst]; [done|].
    intros [->|Hin]%elem_of_cons; [left|right; auto].
Qed.

Lemma dkeys_dset_inv {V} k (v : V) (d : dict V) k' :
  k' ∈ dkeys (dset k v d) → k' = k ∨ k' ∈ dkeys d.
Proof.
  unfold dkeys. intros ([k1 v1] & -> & Hin)%list_elem_of_fmap.
  apply elem_of_dset in Hin as [[= -> ->]|Hin]; [by left|].
  right. apply list_elem_of_fmap. by exists (k1, v1).
Qed.

(** The subjects [get_user_data] lists are subjects of the store, whatever
    the store. *)
Lemma get_user_data_keys st k :
  k ∈ dkeys (get_user_data st) → k ∈ dkeys (subjects st).
Proof.
  unfold get_user_data.
  assert (H : ∀ (d acc : store),
    k ∈ dkeys (foldl (λ user_data '(subject, qa_list),
                        let user_qa := filter (owned_by (current_user st))
                                              qa_list in
                        if truthy user_qa then dset subject user_qa user_data
                        else user_data) acc d) →
    k ∈ dkeys acc ∨ k ∈ dkeys d).
  { induction d as [|[s l] d IH]; intros acc; cbn [foldl]; [by left|].
    intros [Hacc|Hd]%IH.
    - destruct (truthy _); [|by left].
      apply dkeys_dset_inv in Hacc as [->|?]; [right; left|by left].
    - right. unfold dkeys. cbn. by right. }
  intros [Hnil|?]%H; [by apply elem_of_nil in Hnil|done].
Qed.

Lemma page_step_refl st : page_step st st.
Proof.
  split_and!; try done.
  - intros s l qa Hs Hqa. right. by exists l, qa.
  - intros ed Hed. by left.
Qed.

Lemma save_qa_button_step subject question answer now st :
  page_step st (save_qa_button subject question answer now st).
Proof.
  unfold save_qa_button. destruct (_ || _); [apply page_step_refl|].
  unfold add_qa.
  set (subjects0 := if dmem subject (subjects st) then subjects st
                    else dset subject [] (subjects st)).
  assert (H0 : ∀ s l, (s, l) ∈ subjects0 → l = [] ∨ (s, l) ∈ subjects st).
  { intros s l. unfold subjects0. destruct (dmem _ _); [by right|].
    intros [[= -> ->]|?]%elem_of_dset; [by left|by right]. }
  assert (Hk0 : ∀ k, k ∈ dkeys (subjects st) → k ∈ dkeys subjects0).
  { intros k. unfold subjects0. destruct (dmem _ _); [done|].
    apply dkeys_dset_mono. }
  destruct (dget subject subjects0) as [l|] eqn:Hl;
    cbn [subjects current_user authenticated editing data_file save_data
         set_subjects].
  - split_and!; try done.
    + intros k Hk. by apply dkeys_dset_mono, Hk0.
    + intros s l' qa [[= -> ->]|Hin]%elem_of_dset Hqa.
      * apply elem_of_app in Hqa as [Hqa|Hnew%list_elem_of_singleton];
          [|subst qa; by left].
        apply dget_Some_elem in Hl. destruct (H0 _ _ Hl) as [->|?].
        -- by apply elem_of_nil in Hqa.
        -- right. by exists l, qa.
      * destruct (H0 _ _ Hin) as [->|?]; [by apply elem_of_nil in Hqa|].
        right. by exists l', qa.
    + intros ed Hed. by left.
  - split_and!; try done.
    + intros s l' qa Hin Hqa.
      destruct (H0 _ _ Hin) as [->|?]; [by apply elem_of_nil in Hqa|].
      right. by exists l', qa.
    + intros ed Hed. by left.
Qed.

Lemma delete_button_step selected_subject qa st st' :
  delete_button selected_subject qa st = Ok st' → page_step st st'.
Proof.
  unfold delete_button.
  destruct (dget selected_subject (subjects st)) as [l|] eqn:Hl; [|done].
  destruct (list_find _ l) as [[idx item]|] eqn:Hfind; intros [= <-];
    [|apply page_step_refl].
  cbn [subjects current_user authenticated editing data_file save_data
       set_subjects].
  split_and!; try done.
  - intros k. apply dkeys_dset_mono.
  - intros s l' qa' [[= -> ->]|Hin]%elem_of_dset Hqa.
    + right. exists l, qa'. split_and!; [by apply dget_Some_elem| |done].
      by eapply list_elem_of_delete_inv.
    + right. by exists l', qa'.
  - intros ed Hed. by left.
Qed.

Lemma save_changes_step new_question new_answer now st st' :
  save_changes new_question new_answer now st = Ok st' → page_step st st'.
Proof.
  unfold save_changes. destruct (editing st) as [ed|] eqn:Hed;
    [|intros [= <-]; apply page_step_refl].
  destruct (dget (ed_subject ed) (subjects st)) as [l|] eqn:Hl; [|done].
  destruct (list_find _ l) as [[idx item]|] eqn:Hfind; intros [= <-];
    cbn [subjects current_user authenticated editing data_file save_data
         set_subjects del_editing].
  - split_and!; try done.
    + intros k. apply dkeys_dset_mono.
    + intros s l' qa' [[= -> ->]|Hin]%elem_of_dset Hqa.
      * apply list_find_Some in Hfind as (Hidx & _ & _).
        apply list_elem_of_lookup in Hqa as [i Hi].
        destruct (decide (i = idx)) as [->|Hne].
        -- rewrite list_lookup_insert_eq in Hi by (by eapply lookup_lt_Some).
           injection Hi as <-. right. exists l, item.
           split_and!; [by apply dget_Some_elem| |done].
           by eapply list_elem_of_lookup_2.
        -- rewrite list_lookup_insert_ne in Hi by done.
           right. exists l, qa'.
           split_and!; [by apply dget_Some_elem| |done].
           by eapply list_elem_of_lookup_2.
      * right. by exists l', qa'.
  - split_and!; try done.
    intros s l' qa' Hin Hqa. right. by exists l', qa'.
Qed.

Lemma view_qa_step action now st st' :
  view_qa action now st = Ok st' → page_step st st'.
Proof.
  unfold view_qa.
  destruct (truthy (get_user_data st)); cbn [negb];
    [|intros [= <-]; apply page_step_refl].
  destruct action as [s pos|s pos|nq na|].
  - destruct (dget s (get_user_data st)) as [ql|] eqn:Hql;
      [|intros [= <-]; apply page_step_refl].
    destruct (ql !! pos) as [qa|]; intros [= <-]; [|apply page_step_refl].
    cbn. split_and!; try done.
    + intros s' l qa' Hin Hqa. right. by exists l, qa'.
    + intros ed [= <-]. right. cbn.
      apply get_user_data_keys. by eapply dget_Some_dkeys.
  - destruct (dget s (get_user_data st)) as [ql|];
      [|intros [= <-]; apply page_step_refl].
    destruct (ql !! pos) as [qa|]; [|intros [= <-]; apply page_step_refl].
    apply delete_button_step.
  - apply save_changes_step.
  - destruct (editing st); intros [= <-]; [|apply page_step_refl].
    cbn. split_and!; try done.
    intros s' l qa' Hin Hqa. right. by exists l, qa'.
Qed.

(** With the edit buffer on a subject of the store, no button of the view
    page raises. *)
Lemma view_qa_no_KeyError action now st key :
  (∀ ed, editing st = Some ed → ed_subject ed ∈ dkeys (subjects st)) →
  view_qa action now st ≠ KeyError key.
Proof.
  intros Hed. unfold view_qa.
  destruct (truthy (get_user_data st)); cbn [negb]; [|done].
  destruct action as [s pos|s pos|nq na|].
  - destruct (dget s (get_user_data st)); [|done]. by destruct (_ !! _).
  - destruct (dget s (get_user_data st)) as [ql|] eqn:Hql; [|done].
    destruct (ql !! pos) as [qa|]; [|done]. unfold delete_button.
    destruct (dget s (subjects st)) as [l|] eqn:Hl.
    + by destruct (list_find _ l) as [[? ?]|].
    + exfalso. apply dget_None in Hl. apply Hl, get_user_data_keys.
      by eapply dget_Some_dkeys.
  - unfold save_changes. destruct (editing st) as [ed|] eqn:E; [|done].
    destruct (dget (ed_subject ed) (subjects st)) as [l|] eqn:Hl.
    + by destruct (list_find _ l) as [[? ?]|].
    + exfalso. apply dget_None in Hl. by apply Hl, Hed.
  - by destruct (editing st).
Qed.

Section app_facts.
Variable hash_password : string → string.

Lemma verify_user_registered username password f :
  verify_user hash_password username password f = true →
  is_Some (load_users f !! username).
Proof.
  unfold verify_user. destruct (load_users f !! username); [by eexists|done].
Qed.

Lemma register_form_keeps nu np cp email now f username r :
  load_users f !! username = Some r →
  load_users (register_form hash_password nu np cp email now f).2 !! username
  = Some r.
Proof.
  intros Hr. unfold register_form, register_user.
  destruct (negb _); [done|]. destruct (bool_decide _); [done|].
  destruct (decide (is_Some (load_users f !! nu))) as [|Hfree]; [done|].
  cbn [fst snd load_users save_users]. rewrite lookup_insert_ne; [done|].
  intros <-. apply Hfree. by eexists.
Qed.

(** What one pass through [main] can be. *)
Lemma main_cases ev now w :
  main hash_password ev now w = w
  ∨ (authenticated (session w) = false
     ∧ ∃ username,
         is_Some (load_users (users_file w) !! username)
         ∧ main hash_password ev now w
           = with_session
               {| subjects := subjects (session w);
                  current_user := Some username; authenticated := true;
                  editing := editing (session w);
                  data_file := data_file (session w) |} w)
  ∨ (authenticated (session w) = false
     ∧ session (main hash_password ev now w) = session w
     ∧ ∀ username r,
         load_users (users_file w) !! username = Some r →
         load_users (users_file (main hash_password ev now w)) !! username
         = Some r)
  ∨ main hash_password ev now w = with_session (logout (session w)) w
  ∨ (authenticated (session w) = true
     ∧ page_step (session w) (session (main hash_password ev now w))
     ∧ users_file (main hash_password ev now w) = users_file w).
Proof.
  unfold main. destruct (authenticated (session w)) eqn:Hauth; cbn [negb].
  - destruct ev as [|u p|nu np cp e| |s q a|action]; cbn [main_app];
      try (by left).
    + right. right. right. by left.
    + right. right. right. right. split_and!; [done| |done].
      cbn. apply save_qa_button_step.
    + destruct (view_qa action now (session w)) as [st'|key] eqn:Hv;
        [|by left].
      right. right. right. right. split_and!; [done| |done].
      cbn. by eapply view_qa_step.
  - destruct ev as [|u p|nu np cp e| |s q a|action];
      cbn [authentication_section]; try (by left).
    + unfold login_form.
      destruct (verify_user hash_password u p (users_file w)) eqn:Hv;
        [|by left].
      right. left. split; [done|]. exists u. split; [|done].
      by eapply verify_user_registered.
    + right. right. left. split_and!; [done|done|].
      intros username r. cbn. apply register_form_keeps.
Qed.

Lemma load_users_startup w :
  load_users (users_file (startup w)) = load_users (users_file w).
Proof. unfold startup. cbn. by destruct (users_file w). Qed.

Lemma load_data_startup w :
  load_data (session (startup w)) = load_data (session w)
  ∧ subjects (session (startup w)) = load_data (session w)
  ∧ data_file (session (startup w)) = Some (load_data (session w)).
Proof.
  unfold startup, load_data. cbn. by destruct (data_file (session w)).
Qed.

Lemma registered_mono w w' user :
  (∀ username r, load_users (users_file w) !! username = Some r →
                 load_users (users_file w') !! username = Some r) →
  registered w user → registered w' user.
Proof.
  intros Hkeep (name & -> & [r Hr]). exists name. split; [done|].
  exists r. by apply Hkeep.
Qed.

Lemma run_identity_ok ev w :
  identity_ok w → identity_ok (run hash_password ev w).
Proof.
  intros Hid. unfold run.
  assert (Hid0 : identity_ok (startup w)).
  { unfold identity_ok in *. cbn [startup session authenticated current_user
                                   set_subjects].
    destruct (authenticated (session w)); [|done].
    eapply registered_mono; [|exact Hid]. intros username r.
    by rewrite load_users_startup. }
  clear Hid. revert Hid0. generalize (startup w) as w0. intros w0 Hid0.
  destruct (main_cases ev.1 ev.2 w0)
    as [->|[(Hauth & u & Hu & ->)|[(Hauth & Hs & Hkeep)|[->|(Hauth & Hp & Hu)]]]].
  - done.
  - unfold identity_ok. cbn. by exists u.
  - unfold identity_ok in *. rewrite Hs, Hauth in *. done.
  - done.
  - unfold identity_ok in *. destruct Hp as (-> & -> & _).
    rewrite Hauth in *. destruct Hid0 as (name & ? & ?). exists name.
    by rewrite Hu.
Qed.

Lemma run_editing_ok ev w :
  editing_ok w → editing_ok (run hash_password ev w).
Proof.
  intros Hed. unfold run.
  assert (Hed0 : ∀ ed, editing (session (startup w)) = Some ed →
                       ed_subject ed ∈ dkeys (subjects (session (startup w)))).
  { destruct (load_data_startup w) as (_ & -> & _). exact Hed. }
  assert (Hfile : data_file (session (startup w))
                  = Some (subjects (session (startup w)))).
  { destruct (load_data_startup w) as (_ & -> & ->). done. }
  clear Hed. revert Hed0 Hfile. generalize (startup w) as w0.
  intros w0 Hed0 Hfile. unfold editing_ok.
  destruct (main_cases ev.1 ev.2 w0)
    as [->|[(Hauth & u & Hu & ->)|[(Hauth & Hs & Hkeep)|[->|(Hauth & Hp & Hu)]]]];
    unfold load_data.
  - by rewrite Hfile.
  - cbn. by rewrite Hfile.
  - rewrite Hs. by rewrite Hfile.
  - cbn. by rewrite Hfile.
  - destruct Hp as (_ & _ & Hf & Hkeys & _ & Hedit). rewrite (Hf Hfile).
    intros ed [?|?]%Hedit; apply Hkeys; auto.
Qed.

Lemma run_creators_ok ev w :
  identity_ok w → creators_ok w → creators_ok (run hash_password ev w).
Proof.
  intros Hid Hcr. unfold run.
  assert (Hid0 : identity_ok (startup w)).
  { unfold identity_ok in *. cbn [startup session authenticated current_user
                                   set_subjects].
    destruct (authenticated (session w)); [|done].
    eapply registered_mono; [|exact Hid]. intros username r.
    by rewrite load_users_startup. }
  assert (Hcr0 : ∀ s l qa, (s, l) ∈ subjects (session (startup w)) → qa ∈ l →
                           registered (startup w) (created_by qa)).
  { destruct (load_data_startup w) as (_ & -> & _). intros s l qa Hs Hqa.
    eapply registered_mono; [|by eapply Hcr]. intros username r.
    by rewrite load_users_startup. }
  assert (Hfile : data_file (session (startup w))
                  = Some (subjects (session (startup w)))).
  { destruct (load_data_startup w) as (_ & -> & ->). done. }
  clear Hid Hcr. revert Hid0 Hcr0 Hfile. generalize (startup w) as w0.
  intros w0 Hid0 Hcr0 Hfile. unfold creators_ok.
  destruct (main_cases ev.1 ev.2 w0)
    as [->|[(Hauth & u & Hu & ->)|[(Hauth & Hs & Hkeep)|[->|(Hauth & Hp & Hu)]]]];
    unfold load_data.
  - rewrite Hfile. exact Hcr0.
  - cbn. rewrite Hfile. exact Hcr0.
  - rewrite Hs, Hfile. intros s l qa Hin Hqa.
    eapply registered_mono; [exact Hkeep|by eapply Hcr0].
  - cbn. rewrite Hfile. exact Hcr0.
  - destruct Hp as (_ & _ & Hf & _ & Hentries & _). rewrite (Hf Hfile).
    intros s l qa Hin Hqa.
    assert (Hreg : registered w0 (created_by qa)).
    { destruct (Hentries s l qa Hin Hqa) as [->|(l0 & qa0 & ? & ? & <-)].
      - unfold identity_ok in Hid0. by rewrite Hauth in Hid0.
      - by eapply Hcr0. }
    destruct Hreg as (name & ? & ?). exists name. by rewrite Hu.
Qed.
End app_facts.

Section app_properties.
Variable hash_password : string → string.

Lemma runs_identity_ok evs w :
  identity_ok w → identity_ok (runs hash_password evs w).
Proof.
  revert w. induction evs as [|ev evs IH]; intros w Hw; [done|].
  cbn [runs foldl]. apply IH. by apply run_identity_ok.
Qed.

Lemma runs_editing_ok evs w :
  editing_ok w → editing_ok (runs hash_password evs w).
Proof.
  revert w. induction evs as [|ev evs IH]; intros w Hw; [done|].
  cbn [runs foldl]. apply IH. by apply run_editing_ok.
Qed.

Lemma runs_creators_ok evs w :
  identity_ok w → creators_ok w →
  creators_ok (runs hash_password evs w).
Proof.
  revert w. induction evs as [|ev evs IH]; intros w Hid Hcr; [done|].
  cbn [runs foldl]. apply IH.
  - by apply run_identity_ok.
  - by apply run_creators_ok.
Qed.

(** X13: After every run both files exist and the Q&A file holds exactly the
    store of the session: no change is left unsaved, whatever was pressed. *)
Theorem run_leaves_files_in_sync (ev : Event * string) (w : World) :
  data_file (session (run hash_password ev w))
  = Some (subjects (session (run hash_password ev w)))
  ∧ is_Some (users_file (run hash_password ev w)).
Proof.
  unfold run.
  assert (Hfile : data_file (session (startup w))
                  = Some (subjects (session (startup w)))).
  { destruct (load_data_startup w) as (_ & -> & ->). done. }
  assert (Husers : is_Some (users_file (startup w))).
  { unfold startup. cbn. by destruct (users_file w). }
  revert Hfile Husers. generalize (startup w) as w0. intros w0 Hfile Husers.
  unfold main. destruct (authenticated (session w0)); cbn [negb].
  - destruct ev.1 as [|u p|nu np cp e| |s q a|action]; cbn [main_app];
      try done.
    + split; [|done]. cbn.
      by apply (save_qa_button_step s q a ev.2 (session w0)).
    + destruct (view_qa action ev.2 (session w0)) as [st'|key] eqn:Hv;
        [|done].
      split; [|done]. cbn. by apply (view_qa_step _ _ _ _ Hv).
  - destruct ev.1 as [|u p|nu np cp e| |s q a|action];
      cbn [authentication_section]; try done.
    + unfold login_form. by destruct (verify_user _ _ _ _).
    + split; [done|]. cbn. unfold register_form, register_user.
      destruct (negb _); [done|]. destruct (bool_decide _); [done|].
      by destruct (decide _).
Qed.

(** X14: In every state the runs can reach from a new session, being
    authenticated means acting as a registered user, and not being
    authenticated means acting as nobody. *)
Theorem session_identity
    (data : option store) (users : user_file) (evs : list (Event * string)) :
  (authenticated (session (runs hash_password evs (init data users))) = true →
   ∃ name,
     current_user (session (runs hash_password evs (init data users)))
     = Some name
     ∧ is_Some (load_users
                  (users_file (runs hash_password evs (init data users)))
                  !! name))
  ∧ (authenticated (session (runs hash_password evs (init data users)))
     = false →
     current_user (session (runs hash_password evs (init data users)))
     = None).
Proof.
  pose proof (runs_identity_ok evs (init data users) eq_refl) as Hid.
  unfold identity_ok, registered in Hid.
  destruct (authenticated _); split; done.
Qed.

(** X15: If every entry of the Q&A file a session starts with was created by a
    registered user, this stays so after any sequence of runs: entries are
    only added under the name of the registered user logged in, and users
    are never removed. *)
Theorem creators_stay_registered
    (data : option store) (users : user_file) (evs : list (Event * string)) :
  (∀ s l qa, (s, l) ∈ default [] data → qa ∈ l →
     ∃ name, created_by qa = Some name ∧ is_Some (load_users users !! name)) →
  ∀ s l qa,
    (s, l) ∈ load_data (session (runs hash_password evs (init data users))) →
    qa ∈ l →
    ∃ name,
      created_by qa = Some name
      ∧ is_Some (load_users
                   (users_file (runs hash_password evs (init data users)))
                   !! name).
Proof.
  intros Hinit.
  apply (runs_creators_ok evs (init data users)); [done|].
  intros s l qa Hin Hqa. apply (Hinit s l qa); [|done].
  unfold load_data in Hin. cbn in Hin. by destruct data.
Qed.

(** X16: However a session got where it is, no button of the view page makes
    the next run raise [KeyError]: the subject of a pending edit is always
    still a subject of the file. *)
Theorem view_page_never_raises
    (data : option store) (users : user_file) (evs : list (Event * string))
    (action : ViewAction) (now key : string) :
  view_qa action now
    (session (startup (runs hash_password evs (init data users))))
  ≠ KeyError key.
Proof.
  apply view_qa_no_KeyError.
  pose proof (runs_editing_ok evs (init data users)) as Hed.
  destruct (load_data_startup (runs hash_password evs (init data users)))
    as (_ & -> & _).
  apply Hed. by intros ed.
Qed.

Lemma startup_session w :
  data_file (session w) = Some (subjects (session w)) →
  session (startup w) = session w.
Proof.
  destruct w as [[subj cu au ed df] uf]. cbn. intros ->. reflexivity.
Qed.

Lemma verify_user_startup username password w :
  verify_user hash_password username password (users_file (startup w))
  = verify_user hash_password username password (users_file w).
Proof. unfold verify_user. by rewrite load_users_startup. Qed.

Lemma run_edit_click selected_subject pos qa_list qa now w :
  authenticated (session w) = true →
  data_file (session w) = Some (subjects (session w)) →
  dget selected_subject (get_user_data (session w)) = Some qa_list →
  qa_list !! pos = Some qa →
  run hash_password (ViewClick (ClickEdit selected_subject pos), now) w
  = with_session (edit_button selected_subject pos qa (session w)) (startup w).
Proof.
  intros Hauth Hfile Hud Hpos. unfold run, main. cbn [fst snd main_app].
  rewrite !startup_session by done. rewrite Hauth. cbn [negb].
  unfold view_qa. rewrite Hud.
  destruct (get_user_data (session w)); [done|]. cbn [truthy negb].
  by rewrite Hpos.
Qed.

Lemma run_logout now w :
  authenticated (session w) = true →
  data_file (session w) = Some (subjects (session w)) →
  run hash_password (LogoutClick, now) w
  = with_session (logout (session w)) (startup w).
Proof.
  intros Hauth Hfile. unfold run, main. cbn [fst snd main_app].
  rewrite !startup_session by done. by rewrite Hauth.
Qed.

Lemma run_login username password now w :
  authenticated (session w) = false →
  data_file (session w) = Some (subjects (session w)) →
  verify_user hash_password username password (users_file w) = true →
  session (run hash_password (LoginSubmit username password, now) w)
  = {| subjects := subjects (session w); current_user := Some username;
       authenticated := true; editing := editing (session w);
       data_file := data_file (session w) |}.
Proof.
  intros Hauth Hfile Hv. unfold run, main.
  cbn [fst snd authentication_section]. unfold login_form.
  rewrite verify_user_startup, Hv, !startup_session by done.
  by rewrite Hauth.
Qed.

(** X17: The edit buffer outlives the login that filled it: after a user's Edit
    click, a logout and the login of another user, the buffer still holds
    the subject, question and answer of the first user's entry. *)
Theorem edit_buffer_outlives_logout
    (w : World) (selected_subject : string) (pos : nat)
    (qa_list : list QAEntry) (qa : QAEntry)
    (username password t1 t2 t3 : string) :
  authenticated (session w) = true →
  data_file (session w) = Some (subjects (session w)) →
  dget selected_subject (get_user_data (session w)) = Some qa_list →
  qa_list !! pos = Some qa →
  verify_user hash_password username password (users_file w) = true →
  current_user
    (session (runs hash_password
                [(ViewClick (ClickEdit selected_subject pos), t1);
                 (LogoutClick, t2); (LoginSubmit username password, t3)] w))
  = Some username
  ∧ editing
      (session (runs hash_password
                  [(ViewClick (ClickEdit selected_subject pos), t1);
                   (LogoutClick, t2); (LoginSubmit username password, t3)] w))
    = Some {| ed_subject := selected_subject; ed_index := pos;
              ed_question := question qa; ed_answer := answer qa |}.
Proof.
  intros Hauth Hfile Hud Hpos Hverify. cbn [runs foldl].
  rewrite (run_edit_click _ _ qa_list qa) by done.
  rewrite run_logout by done.
  rewrite run_login.
  - split; reflexivity.
  - reflexivity.
  - exact Hfile.
  - cbn [with_session users_file]. rewrite verify_user_startup.
    cbn [with_session users_file]. by rewrite verify_user_startup.
Qed.
End app_properties.

(** *** The runs on a small world *)

Definition two_users : user_file :=
  (register_user demo_hash "bob" "builder" None "2024-02-02 08:00:00"
                 demo_users).2.

Definition demo_world : World :=
  {| session := demo_state; users_file := two_users |}.

Lemma session_identity_witness :
  ∃ name,
    current_user
      (session (runs demo_hash
                  [(LoginSubmit "alice" "wonderland", "2024-05-01 08:00:00")]
                  (init None demo_users)))
    = Some name
    ∧ is_Some (load_users
                 (users_file
                    (runs demo_hash
                       [(LoginSubmit "alice" "wonderland",
                         "2024-05-01 08:00:00")]
                       (init None demo_users)))
                 !! name).
Proof.
  apply (session_identity demo_hash None demo_users
           [(LoginSubmit "alice" "wonderland", "2024-05-01 08:00:00")]).
  vm_compute. reflexivity.
Defined.

Lemma creators_stay_registered_witness :
  ∃ name,
    created_by {| question := "Is 2 prime?"; answer := "Yes.";
                  timestamp := "2024-05-01 08:01:00";
                  created_by := Some "alice" |} = Some name
    ∧ is_Some (load_users
                 (users_file
                    (runs demo_hash
                       [(LoginSubmit "alice" "wonderland",
                         "2024-05-01 08:00:00");
                        (SaveQAClick "Numbers" "Is 2 prime?" "Yes.",
                         "2024-05-01 08:01:00")]
                       (init (Some [("Numbers", [alice_prime])])
                             demo_users)))
                 !! name).
Proof.
  refine (creators_stay_registered demo_hash
            (Some [("Numbers", [alice_prime])]) demo_users
            [(LoginSubmit "alice" "wonderland", "2024-05-01 08:00:00");
             (SaveQAClick "Numbers" "Is 2 prime?" "Yes.",
              "2024-05-01 08:01:00")]
            _ "Numbers"
            [alice_prime;
             {| question := "Is 2 prime?"; answer := "Yes.";
                timestamp := "2024-05-01 08:01:00";
                created_by := Some "alice" |}] _ _ _).
  - intros s l qa Hin Hqa. cbn in Hin.
    apply list_elem_of_singleton in Hin. injection Hin as -> ->.
    apply list_elem_of_singleton in Hqa as ->.
    exists "alice". split; [reflexivity|]. vm_compute. eexists. reflexivity.
  - vm_compute. left.
  - right. left.
Defined.

Lemma view_page_never_raises_witness :
  view_qa (SubmitSaveChanges "What is a closure?" "See PEP 227.")
          "2024-05-01 08:03:00"
          (session
             (startup
                (runs demo_hash
                   [(LoginSubmit "alice" "wonderland", "2024-05-01 08:00:00");
                    (ViewClick (ClickEdit "Numbers" 0), "2024-05-01 08:01:00");
                    (ViewClick (ClickDelete "Numbers" 0),
                     "2024-05-01 08:02:00")]
                   (init (Some [("Numbers", [alice_prime])]) demo_users))))
  ≠ KeyError "Numbers".
Proof.
  apply (view_page_never_raises demo_hash
           (Some [("Numbers", [alice_prime])]) demo_users).
Defined.

(** Alice opens her closure entry for editing and logs out; bob logs in:
    the buffer still holds alice's question and answer. *)
Lemma edit_buffer_outlives_logout_witness :
  current_user
    (session (runs demo_hash
                [(ViewClick (ClickEdit "Numbers" 0), "2024-05-01 08:00:00");
                 (LogoutClick, "2024-05-01 08:01:00");
                 (LoginSubmit "bob" "builder", "2024-05-01 08:02:00")]
                demo_world))
  = Some "bob"
  ∧ editing
      (session (runs demo_hash
                  [(ViewClick (ClickEdit "Numbers" 0), "2024-05-01 08:00:00");
                   (LogoutClick, "2024-05-01 08:01:00");
                   (LoginSubmit "bob" "builder", "2024-05-01 08:02:00")]
                  demo_world))
    = Some {| ed_subject := "Numbers"; ed_index := 0;
              ed_question := "Is 97 prime?"; ed_answer := "Yes." |}.
Proof.
  apply (edit_buffer_outlives_logout demo_hash demo_world "Numbers" 0
           [alice_prime] alice_prime "bob" "builder").
  - reflexivity.
  - reflexivity.
  - reflexivity.
  - reflexivity.
  - vm_compute. reflexivity.
Defined.

End App.

(** ** The Q&A file as text *)
Module Persist.
Import QA.

(** What [save_data] writes: [json.dump(data, f, indent=4)]. *)
Definition save_data_text (data : store) : string :=
  Json.dumps (py_of_store data).

(** What the last lines of the script write when [DATA_FILE] is missing:
    [json.dump({}, f)]. *)
Definition empty_file_text : string := "{}".

(** [load_data] on the file's text ([None]: no such file).  The result is
    [None] when [json.load] raises or the document is not a mapping from
    subjects to lists of entries. *)
Definition load_data_text (file : option string) : option store :=
  match file with
  | None => Some []
  | Some text => Json.loads text ≫= store_of_py
  end.

(** A character [json.dump] may write: a line feed or printable ASCII. *)
Definition plain (c : ascii) : Prop :=
  c = Json.LF ∨ (32 ≤ N_of_ascii c ∧ N_of_ascii c ≤ 126)%N.

#[global] Instance plain_dec c : Decision (plain c).
Proof. unfold plain. apply _. Defined.

Lemma escape_char_plain c : Forall plain (Json.escape_char c).
Proof.
  destruct c as [[] [] [] [] [] [] [] []];
    apply (bool_decide_unpack _); by vm_compute.
Qed.

Lemma encode_string_plain s : Forall plain (Json.encode_string s).
Proof.
  unfold Json.encode_string. apply Forall_cons. split.
  { apply (bool_decide_unpack _). by vm_compute. }
  apply Forall_app. split.
  - apply Forall_bind, Forall_forall. intros c _. apply escape_char_plain.
  - apply Forall_singleton. apply (bool_decide_unpack _). by vm_compute.
Qed.

Lemma newline_indent_plain level : Forall plain (Json.newline_indent level).
Proof.
  unfold Json.newline_indent. apply Forall_cons. split; [by left|].
  apply Forall_replicate. apply (bool_decide_unpack _). by vm_compute.
Qed.

Lemma encode_plain v : ∀ level, Forall plain (Json.encode level v).
Proof.
  induction v as [|b|s|items IH|members IH] using Json.json_ind; intros level.
  - apply (bool_decide_unpack _). by vm_compute.
  - destruct b; apply (bool_decide_unpack _); by vm_compute.
  - apply encode_string_plain.
  - destruct items as [|v0 vs]; [apply (bool_decide_unpack _); by vm_compute|].
    apply Forall_cons in IH as [Hv0 IH]. cbn [Json.encode].
    apply Forall_cons. split; [apply (bool_decide_unpack _); by vm_compute|].
    repeat (apply Forall_app; split);
      auto using newline_indent_plain.
    + apply Forall_bind. eapply Forall_impl; [exact IH|]. intros v Hv. cbn beta.
      apply Forall_cons. split; [apply (bool_decide_unpack _); by vm_compute|].
      apply Forall_app; split; auto using newline_indent_plain.
    + apply Forall_singleton. apply (bool_decide_unpack _). by vm_compute.
  - destruct members as [|m0 ms];
      [apply (bool_decide_unpack _); by vm_compute|].
    apply Forall_cons in IH as [Hv0 IH]. cbn [Json.encode].
    assert (Hsep : Forall plain (String.list_ascii_of_string ": "))
      by (apply (bool_decide_unpack _); by vm_compute).
    apply Forall_cons. split; [apply (bool_decide_unpack _); by vm_compute|].
    repeat (apply Forall_app; split);
      auto using newline_indent_plain, encode_string_plain.
    + apply Forall_bind. eapply Forall_impl; [exact IH|]. intros m Hm. cbn beta.
      apply Forall_cons. split; [apply (bool_decide_unpack _); by vm_compute|].
      repeat (apply Forall_app; split);
        auto using newline_indent_plain, encode_string_plain.
    + apply Forall_singleton. apply (bool_decide_unpack _). by vm_compute.
Qed.

(** X18: Whatever characters the questions, answers and subjects hold, the text
    [save_data] writes and the text the JSON export offers consist of
    printable ASCII characters and line feeds only. *)
Theorem saved_text_is_ascii (data : store) :
  Forall plain (String.list_ascii_of_string (save_data_text data))
  ∧ Forall plain (String.list_ascii_of_string (json_str_of data)).
Proof.
  unfold save_data_text, json_str_of, Json.dumps.
  rewrite String.list_ascii_of_string_of_list_ascii.
  split; apply encode_plain.
Qed.

(** X19: What [save_data] writes, [load_data] reads back as the same store; a
    missing file and the file created at start-up both read as the empty
    store. *)
Theorem data_file_round_trip (data : store) :
  wf data →
  load_data_text (Some (save_data_text data)) = Some data
  ∧ load_data_text None = Some []
  ∧ load_data_text (Some empty_file_text) = Some [].
Proof.
  intros Hwf. split_and!; [|reflexivity|reflexivity].
  unfold load_data_text, save_data_text.
  rewrite Json.loads_dumps by (by apply py_of_store_jwf).
  cbn [mbind option_bind]. apply store_of_py_of_store.
Qed.

Lemma data_file_round_trip_witness :
  load_data_text (Some (save_data_text demo_subjects)) = Some demo_subjects
  ∧ load_data_text None = Some []
  ∧ load_data_text (Some empty_file_text) = Some [].
Proof. exact (data_file_round_trip demo_subjects wf_demo_subjects). Defined.

End Persist.
